(** * Hyperspy: a shallow embedding of the loader, the EDS utilities, the
    model factory, and of the axis and multifit contracts

    Part I embeds the code (one Rocq module per Python module), Part II
    states and proves the properties.

    Conventions.
    - Python dictionaries with string keys are [gmap string _]; lists are
      [list]; a raised exception is the [Raise] branch of [result].
    - Numbers are rationals ([Q]), which do not round as Python floats
      do: the theorems below are about what no rounding can change
      (which branch is taken on a sign or on a zero, which exception is
      raised, what is clamped), not about identities between computed
      numbers.
    - Text written to standard output ([print]) is not part of any value
      the functions return and is left out. *)

From Stdlib Require Import Ascii ZArith QArith Qround Qabs Qminmax Qfield Lia Lqa.
From stdpp Require Import gmap strings list fin_maps.

#[local] Set Warnings "-register-all".
#[local] Open Scope string_scope.

(* ===================================================================== *)
(** * Part I. The embedding                                              *)
(* ===================================================================== *)

(** ** Python values, exceptions, sequences *)

Module Py.

Inductive exn : Type :=
| KeyError (key : string)
| IndexError
| AttributeError (attr : string)
| UnboundLocalError (var : string)
| ZeroDivisionError
| TypeError
| ImportError
| DuplicateNameError
| IndexOutOfRange
| InvalidInitialGuess
| Other (what : string).

Inductive result (A : Type) : Type :=
| Ok (a : A)
| Raise (e : exn).
Arguments Ok {A} a.
Arguments Raise {A} e.

#[export] Instance result_ret : MRet result := fun A a => Ok a.
#[export] Instance result_bind : MBind result :=
  fun A B f m => match m with Ok a => f a | Raise e => Raise e end.
#[export] Instance result_fmap : FMap result :=
  fun A B f m => match m with Ok a => Ok (f a) | Raise e => Raise e end.

Definition is_Ok {A} (r : result A) : Prop := exists a, r = Ok a.

(** [mapM] in source order: the first failing element decides. *)
Fixpoint mapM {A B} (f : A -> result B) (l : list A) : result (list B) :=
  match l with
  | [] => Ok []
  | x :: l' => y ← f x; ys ← mapM f l'; Ok (y :: ys)
  end.

(** An n-dimensional array: its shape and its elements by multi-index. *)
Record ndarray (A : Type) : Type :=
  NdArray { shape : list nat; item : list nat -> A }.
Arguments NdArray {A} shape item.
Arguments shape {A} n.
Arguments item {A} n idx.

Inductive pyval : Type :=
| PNone
| PInt (z : Z)
| PFloat (q : Q)
| PStr (s : string)
| PList (l : list pyval)
| PDict (d : gmap string pyval)
| PArray (a : ndarray pyval).

(** [d[k]] on a dictionary. *)
Definition getitem {V} (d : gmap string V) (k : string) : result V :=
  match d !! k with
  | Some v => Ok v
  | None => Raise (KeyError k)
  end.

(** [l[i]] for a non-negative index. *)
Definition index {A} (l : list A) (i : nat) : result A :=
  match l !! i with
  | Some v => Ok v
  | None => Raise IndexError
  end.

(** [l[start:]], with Python's treatment of a negative start. *)
Definition slice_from {A} (start : Z) (l : list A) : list A :=
  if (start <? 0)%Z
  then drop (Z.to_nat (Z.max 0 (Z.of_nat (length l) + start))) l
  else drop (Z.to_nat start) l.

(** [v[k]] when [v] should be a dictionary, iteration when it should be
    a list. *)
Definition as_dict (v : pyval) : result (gmap string pyval) :=
  match v with PDict d => Ok d | _ => Raise TypeError end.

Definition as_list (v : pyval) : result (list pyval) :=
  match v with PList l => Ok l | _ => Raise TypeError end.

Definition subscript (v : pyval) (k : string) : result pyval :=
  d ← as_dict v; getitem d k.

(** [v == s] for a string literal [s]. *)
Definition eq_str (v : pyval) (s : string) : bool :=
  match v with PStr s' => bool_decide (s' = s) | _ => false end.

(** [a + b] where one operand is known to be a [str]. *)
Definition add_str (a b : pyval) : result pyval :=
  match a, b with
  | PStr s, PStr t => Ok (PStr (s ++ t))
  | _, _ => Raise TypeError
  end.

(** [a.T]: the axes in reverse order. *)
Definition transpose {A} (a : ndarray A) : ndarray A :=
  {| shape := rev (shape a); item := fun idx => item a (rev idx) |}.

(** [a[0]] on a numpy array. *)
Definition first_item (a : ndarray pyval) : result pyval :=
  match shape a with
  | [] => Raise IndexError
  | O :: _ => Raise IndexError
  | S _ :: [] => Ok (item a [0])
  | S _ :: rest =>
      Ok (PArray {| shape := rest; item := fun idx => item a (0 :: idx) |})
  end.

(** [try: body / except KeyError: handler]. *)
Definition except_KeyError {A} (body : result A) (handler : A) : result A :=
  match body with
  | Raise (KeyError _) => Ok handler
  | r => r
  end.

(** [os.path.split(p)[1]]: what follows the last slash. *)
Fixpoint path_tail (p cur : string) : string :=
  match p with
  | EmptyString => cur
  | String c r =>
      if Ascii.eqb c "/"%char then path_tail r EmptyString
      else path_tail r (cur ++ String c EmptyString)
  end.

(** [s.find(c)] for a one-character [c]: the least index of [c] in [s],
    or -1. *)
Fixpoint str_find (c : ascii) (s : string) : Z :=
  match s with
  | EmptyString => (-1)%Z
  | String c' r =>
      if Ascii.eqb c' c then 0%Z
      else let i := str_find c r in
           if (i <? 0)%Z then (-1)%Z else (i + 1)%Z
  end.

Fixpoint str_take (n : nat) (s : string) : string :=
  match n, s with
  | S n', String c r => String c (str_take n' r)
  | _, _ => EmptyString
  end.

Fixpoint str_drop (n : nat) (s : string) : string :=
  match n, s with
  | S n', String _ r => str_drop n' r
  | _, _ => s
  end.

(** [s[:stop]] and [s[start:]], a negative bound counting from the end. *)
Definition str_slice_to (stop : Z) (s : string) : string :=
  if (stop <? 0)%Z
  then str_take (Z.to_nat (Z.max 0 (Z.of_nat (String.length s) + stop))) s
  else str_take (Z.to_nat stop) s.

Definition str_slice_from (start : Z) (s : string) : string :=
  if (start <? 0)%Z
  then str_drop (Z.to_nat (Z.max 0 (Z.of_nat (String.length s) + start))) s
  else str_drop (Z.to_nat start) s.

End Py.
Import Py.

(** ** hyperspy/io_plugins/netcdf.py *)

Module netcdf.

Definition attrib2netcdf : list (string * string) :=
  [ ("energyorigin", "energy_origin");
    ("energyscale", "energy_scale");
    ("energyunits", "energy_units");
    ("xorigin", "x_origin");
    ("xscale", "x_scale");
    ("xunits", "x_units");
    ("yorigin", "y_origin");
    ("yscale", "y_scale");
    ("yunits", "y_units");
    ("zorigin", "z_origin");
    ("zscale", "z_scale");
    ("zunits", "z_units");
    ("exposure", "exposure");
    ("title", "title");
    ("binning", "binning");
    ("readout_frequency", "readout_frequency");
    ("ccd_height", "ccd_height");
    ("blanking", "blanking") ].

Definition acquisition2netcdf : list (string * string) :=
  [ ("exposure", "exposure");
    ("binning", "binning");
    ("readout_frequency", "readout_frequency");
    ("ccd_height", "ccd_height");
    ("blanking", "blanking");
    ("gain", "gain");
    ("pppc", "pppc") ].

Definition treatments2netcdf : list (string * string) :=
  [ ("dark_current", "dark_current");
    ("readout", "readout") ].

(** A netCDF variable ([dc]): its array and its attributes. *)
Record Variable_ : Type :=
  { var_data : ndarray pyval; var_attrs : gmap string pyval }.

(** An open netCDF file: global attributes and variables. *)
Record Dataset : Type :=
  { ds_attrs : gmap string pyval; variables : gmap string Variable_ }.

Definition getattr (attrs : gmap string pyval) (a : string) : result pyval :=
  match attrs !! a with
  | Some v => Ok v
  | None => Raise (AttributeError a)
  end.

(** The three [for attrib in <table>.items()] loops.  [unwrap] is set for
    the two loops that take [value[0]] of an array-valued attribute.  The
    tables' keys are distinct, so the order in which [items()] yields the
    pairs does not change the dictionary built. *)
Fixpoint read_attribs (unwrap : bool) (items : list (string * string))
    (dc : Variable_) (acc : gmap string pyval) : result (gmap string pyval) :=
  match items with
  | [] => Ok acc
  | attrib :: rest =>
      match var_attrs dc !! attrib.2 with
      | Some value =>
          v ← match value with
              | PArray a => if unwrap then first_item a else Ok value
              | _ => Ok value
              end;
          read_attribs unwrap rest dc (<[attrib.1 := v]> acc)
      | None => read_attribs unwrap rest dc acc
      end
  end.

(** [[calibration_dict[key] for key in keys]] under [try/except KeyError]. *)
Definition lookup_keys (calibration_dict : gmap string pyval)
    (keys : list string) (default : list pyval) : result (list pyval) :=
  except_KeyError (mapM (getitem calibration_dict) keys) default.

(** One element of the [axes] comprehension. *)
Definition axis_entry (data : ndarray pyval)
    (names : list string) (scales origins units : list pyval) (i : nat)
    : result pyval :=
  size ← index (shape data) i;
  name ← index names i;
  scale ← index scales i;
  offset ← index origins i;
  unit_ ← index units i;
  Ok (PDict (<["size" := PInt (Z.of_nat size)]>
            (<["index_in_array" := PInt (Z.of_nat i)]>
            (<["name" := PStr name]>
            (<["scale" := scale]>
            (<["offset" := offset]>
            (<["units" := unit_]> ∅))))))).

Definition nc_hyperspy_reader_0dot1 (ncfile : Dataset) (filename : string)
    : result (gmap string pyval) :=
  dc ← getitem (variables ncfile) "data_cube";
  let data := var_data dc in
  (* calibration_dict is empty here, so the 'history' branch is dead *)
  calibration_dict ← read_attribs true attrib2netcdf dc ∅;
  acquisition_dict ← read_attribs true acquisition2netcdf dc ∅;
  treatments_dict ← read_attribs false treatments2netcdf dc ∅;
  type_ ← getattr (ds_attrs ncfile) "type";
  let original_parameters : gmap string pyval :=
    <["record_by" := type_]>
    (<["calibration" := PDict calibration_dict]>
    (<["acquisition" := PDict acquisition_dict]>
    (<["treatments" := PDict treatments_dict]> ∅))) in
  let record_by := if eq_str type_ "Image" then "image" else "spectrum" in
  let dim := length (shape data) in
  let start := (3 - Z.of_nat dim)%Z in
  let '(names, scaleskeys, originskeys, unitskeys) :=
    if bool_decide (record_by = "image")
    then (slice_from start ["Z"; "Y"; "X"],
          ["zscale"; "yscale"; "xscale"],
          ["zorigin"; "yorigin"; "xorigin"],
          ["zunits"; "yunits"; "xunits"])
    else (slice_from start ["Y"; "X"; "Energy"],
          ["yscale"; "xscale"; "energyscale"],
          ["yorigin"; "xorigin"; "energyorigin"],
          ["yunits"; "xunits"; "energyunits"]) in
  (* The images are recorded in the Fortran order *)
  let data := transpose data in
  scales ← lookup_keys calibration_dict (slice_from start scaleskeys)
             (slice_from start [PInt 1; PInt 1; PInt 1]);
  origins ← lookup_keys calibration_dict (slice_from start originskeys)
              (slice_from start [PInt 0; PInt 0; PInt 0]);
  units ← lookup_keys calibration_dict (slice_from start unitskeys)
            [PStr ""; PStr ""; PStr ""];
  axes ← mapM (axis_entry data names scales origins units) (seq 0 dim);
  let mapped_parameters : gmap string pyval :=
    <["original_filename" := PStr (path_tail filename "")]>
    (<["record_by" := PStr record_by]>
    (<["signal_type" := PStr ""]> ∅)) in
  Ok (<["data" := PArray data]>
     (<["axes" := PList axes]>
     (<["mapped_parameters" := PDict mapped_parameters]>
     (<["original_parameters" := PDict original_parameters]> ∅)))).

(** [file_reader]: [no_netcdf] is the module flag set by the imports,
    [open_] stands for [Dataset(filename, 'r')], [warning_exit] for
    [messages.warning_exit]. *)
Definition file_reader (no_netcdf : bool)
    (open_ : string -> result Dataset) (warning_exit : string -> result unit)
    (filename : string) : result (list (gmap string pyval)) :=
  if no_netcdf then Raise ImportError else
  ncfile ← open_ filename;
  dictionary ←
    match ds_attrs ncfile !! "file_format_version" with
    | Some v =>
        if eq_str v "EELSLab 0.1"
        then d ← nc_hyperspy_reader_0dot1 ncfile filename; Ok (Some d)
        else Ok None
    | None =>
        _ ← warning_exit "Unsupported netCDF file"; Ok None
    end;
  match dictionary with
  | Some d => Ok [d]
  | None => Raise (UnboundLocalError "dictionary")
  end.

End netcdf.

(** ** hyperspy/misc/eds/utils.py *)

Module eds_utils.

Section utils.

(** [hyperspy.misc.eds.elements.elements], the element table: element
    symbol, then property name ('density', 'Z', 'A'). *)
Variable elements_db : gmap string (gmap string Q).

(** [np.power] and [math.cos(math.radians(_))]. *)
Variable power : Q -> Q -> Q.
Variable cos_radians : Q -> Q.

(** [elements_db[element][property]]. *)
Definition element_property (element property : string) : result Q :=
  props ← getitem elements_db element; getitem props property.

(** The local variables of [electron_range] that the body assigns. *)
Record locals : Type :=
  { loc_rho : option Q; loc_Z : option Q; loc_A : option Q }.

(** Reading a local variable: unbound locals raise. *)
Definition load (var : string) (slot : option Q) : result Q :=
  match slot with
  | Some v => Ok v
  | None => Raise (UnboundLocalError var)
  end.

Definition electron_range (element : string) (beam_energy : Q)
    (rho : option Q) (tilt : Q) : result Q :=
  frame ←
    match rho with
    | None =>
        rho' ← element_property element "density";
        Z' ← element_property element "Z";
        A' ← element_property element "A";
        Ok {| loc_rho := Some rho'; loc_Z := Some Z'; loc_A := Some A' |}
    | Some r => Ok {| loc_rho := Some r; loc_Z := None; loc_A := None |}
    end;
  A' ← load "A" (loc_A frame);
  Z' ← load "Z" (loc_Z frame);
  rho' ← load "rho" (loc_rho frame);
  Ok (0.0276 * A' / power Z' 0.89 / rho' *
      power beam_energy 1.67 * cos_radians tilt)%Q.

(** Python's [/] on floats. *)
Definition div (x y : Q) : result Q :=
  if Qeq_bool y 0 then Raise ZeroDivisionError else Ok (x / y)%Q.

(** [for i, element in enumerate(elements): tot = tot + <term>], where
    [term] is the expression in [compositions[i]] and
    [elements_db[element]['A']]. *)
Fixpoint tot_loop (term : Q -> Q -> result Q) (i : nat)
    (elements : list string) (compositions : list Q) (tot : Q) : result Q :=
  match elements with
  | [] => Ok tot
  | element :: rest =>
      c ← index compositions i;
      a ← element_property element "A";
      t ← term c a;
      tot_loop term (S i) rest compositions (tot + t)%Q
  end.

(** [for i, element in enumerate(elements): out.append(<term>/tot)]. *)
Fixpoint append_loop (term : Q -> Q -> result Q) (i : nat)
    (elements : list string) (compositions : list Q) (tot : Q)
    (out : list Q) : result (list Q) :=
  match elements with
  | [] => Ok out
  | element :: rest =>
      c ← index compositions i;
      a ← element_property element "A";
      t ← term c a;
      w ← div t tot;
      append_loop term (S i) rest compositions tot (out ++ [w])
  end.

Definition atomic_to_weight (elements : list string) (compositions : list Q)
    : result (list Q) :=
  let term c a := Ok (c * a)%Q in
  tot ← tot_loop term 0 elements compositions 0%Q;
  append_loop term 0 elements compositions tot [].

End utils.

Section lines.

(** The element table again, with the part of it that the functions on
    X-ray lines read: [Xray_energy] holds [elements_db[element]
    ['Xray_energy']], by element and then by line; [sqrt] is [math.sqrt]
    on the numbers it accepts. *)
Variable elements_db : gmap string (gmap string Q).
Variable Xray_energy : gmap string (gmap string Q).
Variable power : Q -> Q -> Q.
Variable sqrt : Q -> Q.

Definition _get_element_and_line (Xray_line : string) : string * string :=
  let lim := str_find "_"%char Xray_line in
  (str_slice_to lim Xray_line, str_slice_from (lim + 1) Xray_line).

(** [elements_db[element]['Xray_energy'][line]]. *)
Definition line_energy (element line : string) : result Q :=
  _ ← getitem elements_db element;
  lines ← match Xray_energy !! element with
          | Some l => Ok l
          | None => Raise (KeyError "Xray_energy")
          end;
  getitem lines line.

Definition xray_range (Xray_line : string) (beam_energy : Q)
    (rho : option Q) : result Q :=
  let '(element, line) := _get_element_and_line Xray_line in
  rho ← match rho with
        | None => element_property elements_db element "density"
        | Some r => Ok r
        end;
  Xray_energy ← line_energy element line;
  q ← div 0.064 rho;
  Ok (q * (power beam_energy 1.68 - power Xray_energy 1.68))%Q.

(** [math.sqrt]: a negative argument is a domain error (ValueError). *)
Definition math_sqrt (x : Q) : result Q :=
  if Qle_bool 0 x then Ok (sqrt x) else Raise (Other "ValueError").

Definition FWHM (FWHM_ref E : Q) (line_ref : string) : result Q :=
  let '(element, line) := _get_element_and_line line_ref in
  E_ref ← line_energy element line;
  let FWHM_e := (2.5 * (E - E_ref) * 1000 + FWHM_ref * FWHM_ref)%Q in
  r ← math_sqrt FWHM_e;
  Ok (r / 1000)%Q.

End lines.

End eds_utils.

(** ** The calibrated axis of the data model *)

Module axes.

(** [{size, scale, offset, units, name, index_in_array}]; [N] is the type
    of the calibration numbers and [S] the type of the labels. *)
Record AxisModel (N S : Type) : Type :=
  { size : nat;
    scale : N;
    offset : N;
    units : S;
    name : S;
    index_in_array : nat }.
Arguments size {N S} a.
Arguments scale {N S} a.
Arguments offset {N S} a.
Arguments units {N S} a.
Arguments name {N S} a.
Arguments index_in_array {N S} a.

Definition axis : Type := AxisModel Q string.

(** Nearest integer, halves away from zero. *)
Definition round (x : Q) : Z :=
  if Qle_bool 0 x then Qfloor (x + (1 # 2)) else Qceiling (x - (1 # 2)).

Definition clamp (lo hi i : Z) : Z := Z.max lo (Z.min hi i).

(** Modelled from the spec: [index_at] of AxisModel ([value2index] in the
    tests; the axis class is not among the sources).  The inverse mapping,
    rounded to the nearest index and clamped to [[0, size-1]]; it has no
    failing case.  ([x / 0] is [0] in [Q], so an axis of scale zero
    answers the index [0].) *)
Definition index_at (ax : axis) (v : Q) : Z :=
  clamp 0 (Z.of_nat (size ax) - 1) (round ((v - offset ax) / scale ax)).

(** The least and the greatest physical value of an axis. *)
Definition low_value (ax : axis) : Q :=
  Qmin (offset ax) (offset ax + inject_Z (Z.of_nat (size ax) - 1) * scale ax).

Definition high_value (ax : axis) : Q :=
  Qmax (offset ax) (offset ax + inject_Z (Z.of_nat (size ax) - 1) * scale ax).

End axes.

(** ** hyperspy/hspy.py *)

Module hspy.

(** An axis object as Python holds it: every attribute is a plain value. *)
Definition DataAxis : Type := axes.AxisModel pyval pyval.

Definition set_scale (v : pyval) (a : DataAxis) : DataAxis :=
  {| axes.size := axes.size a; axes.scale := v; axes.offset := axes.offset a;
     axes.units := axes.units a; axes.name := axes.name a;
     axes.index_in_array := axes.index_in_array a |}.

Definition set_offset (v : pyval) (a : DataAxis) : DataAxis :=
  {| axes.size := axes.size a; axes.scale := axes.scale a; axes.offset := v;
     axes.units := axes.units a; axes.name := axes.name a;
     axes.index_in_array := axes.index_in_array a |}.

Definition set_units (v : pyval) (a : DataAxis) : DataAxis :=
  {| axes.size := axes.size a; axes.scale := axes.scale a;
     axes.offset := axes.offset a; axes.units := v; axes.name := axes.name a;
     axes.index_in_array := axes.index_in_array a |}.

(** The axes manager.  [_axes] is the store of axis objects;
    [navigation_axes] and [signal_axes] hold references into it (positions
    in [_axes]), so that assigning to a navigation or signal axis changes
    the axis of the manager. *)
Record AxesManager : Type :=
  { _axes : list DataAxis;
    navigation_axes : list nat;
    signal_axes : list nat }.

(** A signal object: the method resolution order of its class (the class
    itself first), its axes manager, and the rest of its state. *)
Record Signal : Type :=
  { mro : list string;
    axes_manager : AxesManager;
    data : pyval;
    mapped_parameters : gmap string pyval }.

Definition isinstance (signal : Signal) (cls : string) : bool :=
  bool_decide (cls ∈ mro signal).

Record Component : Type :=
  { name : pyval; active : bool; state : gmap string pyval }.

Definition set_name (v : pyval) (c : Component) : Component :=
  {| name := v; active := active c; state := state c |}.

Inductive ModelClass : Type := EELSModel | Model_.

(** A model: an instance of [ModelClass] over a spectrum, and the ordered
    sequence of its components. *)
Record Model : Type :=
  { class_ : ModelClass; spectrum : Signal; items : list Component }.

(** Names collide when they are the same string. *)
Definition same_name (a b : pyval) : bool :=
  match a, b with
  | PStr s, PStr t => bool_decide (s = t)
  | _, _ => false
  end.

(** Modelled from the spec: [append] of ComponentSum (the model class is
    not among the sources).  Adds the component at the end of the ordered
    sequence; fails with DuplicateNameError if the name collides with an
    existing active component. *)
Definition append (model : Model) (component : Component) : result Model :=
  if existsb (fun c => active c && same_name (name c) (name component))
       (items model)
  then Raise DuplicateNameError
  else Ok {| class_ := class_ model; spectrum := spectrum model;
             items := items model ++ [component] |}.

(** [model.pop()], the model being a sequence of components: removes the
    last one. *)
Definition pop (model : Model) : result Model :=
  match items model with
  | [] => Raise IndexError
  | l => Ok {| class_ := class_ model; spectrum := spectrum model;
               items := removelast l |}
  end.

(** [for s_axis, axis in zip(s_axes, entries)]: the three assignments to
    the axis that [ref] points to.  [zip] stops at the shorter sequence. *)
Fixpoint restore_loop (refs : list nat) (entries : list pyval)
    (store : list DataAxis) : result (list DataAxis) :=
  match refs, entries with
  | ref :: refs', entry :: entries' =>
      v ← subscript entry "scale";
      let store := alter (set_scale v) ref store in
      v ← subscript entry "offset";
      let store := alter (set_offset v) ref store in
      v ← subscript entry "units";
      let store := alter (set_units v) ref store in
      restore_loop refs' entries' store
  | _, _ => Ok store
  end.

Definition with_axes (spectrum : Signal) (store : list DataAxis) : Signal :=
  {| mro := mro spectrum;
     axes_manager :=
       {| _axes := store;
          navigation_axes := navigation_axes (axes_manager spectrum);
          signal_axes := signal_axes (axes_manager spectrum) |};
     data := data spectrum;
     mapped_parameters := mapped_parameters spectrum |}.

(** The blocks "Navigation axes" and "Signal axes" of
    [create_model_from_dict]. *)
Definition restore_calibration (spectrum : Signal)
    (model_dict : gmap string pyval) : result Signal :=
  let s_nav_axes := navigation_axes (axes_manager spectrum) in
  nav ← getitem model_dict "navigation_axes";
  nav ← as_list nav;
  store ← restore_loop s_nav_axes nav (_axes (axes_manager spectrum));
  let s_sig_axes := signal_axes (axes_manager spectrum) in
  sig ← getitem model_dict "signal_axes";
  sig ← as_list sig;
  store ← restore_loop s_sig_axes sig store;
  Ok (with_axes spectrum store).

Section factory.

(** The classes that [hspy] imports and only calls: the signal
    constructors, [set_microscope_parameters], the [__init__] of the two
    model classes (which yields the components the new model starts
    with), and the namespace [components] of component classes. *)
Variable EELSSpectrum Spectrum : gmap string pyval -> result Signal.
Variable set_microscope_parameters :
  Signal -> pyval -> pyval -> pyval -> result Signal.
Variable EELSModel__init__ Model__init__ :
  Signal -> list pyval -> gmap string pyval -> result (list Component).
Variable components :
  gmap string (list pyval -> gmap string pyval -> result Component).

(** [cls(signal, *args, **kwargs)]: an instance of [cls], initialised. *)
Definition new (cls : ModelClass) (signal : Signal) (args : list pyval)
    (kwargs : gmap string pyval) : result Model :=
  comps ← match cls with
          | EELSModel => EELSModel__init__ signal args kwargs
          | Model_ => Model__init__ signal args kwargs
          end;
  Ok {| class_ := cls; spectrum := signal; items := comps |}.

Definition create_model (signal : Signal) (args : list pyval)
    (kwargs : gmap string pyval) : result Model :=
  if isinstance signal "EELSSpectrum"
  then new EELSModel signal args kwargs
  else new Model_ signal args kwargs.

(** [getattr(components, name)]. *)
Definition getattr_components (id : pyval)
    : result (list pyval -> gmap string pyval -> result Component) :=
  match id with
  | PStr s =>
      match components !! s with
      | Some cls => Ok cls
      | None => Raise (AttributeError s)
      end
  | _ => Raise TypeError
  end.

(** The body of [for _component in model_dict['components']]. *)
Definition build_component (_component : pyval) : result Component :=
  id ← subscript _component "_id_name";
  comp_object ← getattr_components id;
  if eq_str id "EELSCLEdge" then
    element ← subscript _component "element";
    prefix ← add_str element (PStr "_");
    subshell ← subscript _component "subshell";
    arg ← add_str prefix subshell;
    GOS ← subscript _component "GOS";
    component ← comp_object [arg] {[ "GOS" := GOS ]};
    n ← subscript _component "name";
    Ok (set_name n component)
  else
    component ← comp_object [] ∅;
    n ← subscript _component "name";
    Ok (set_name n component).

Fixpoint append_components (model : Model) (entries : list pyval)
    : result Model :=
  match entries with
  | [] => Ok model
  | _component :: rest =>
      component ← build_component _component;
      model ← append model component;
      append_components model rest
  end.

Definition build_spectrum (model_dict : gmap string pyval) : result Signal :=
  spectrum_type ← getitem model_dict "spectrum_type";
  if eq_str spectrum_type "<class 'hyperspy.signals.eels.EELSSpectrum'>" then
    d ← getitem model_dict "spectrum";
    spectrum ← EELSSpectrum {[ "data" := d ]};
    beam_energy ←
      (p ← getitem model_dict "spectrum_mapped_parameters";
       p ← subscript p "TEM"; subscript p "beam_energy");
    convergence_angle ←
      (p ← getitem model_dict "spectrum_mapped_parameters";
       p ← subscript p "TEM"; subscript p "convergence_angle");
    collection_angle ←
      (p ← getitem model_dict "spectrum_mapped_parameters";
       p ← subscript p "TEM"; p ← subscript p "EELS";
       subscript p "collection_angle");
    set_microscope_parameters spectrum
      beam_energy convergence_angle collection_angle
  else
    d ← getitem model_dict "spectrum";
    Spectrum {[ "data" := d ]}.

Definition build_model (spectrum : Signal) (model_dict : gmap string pyval)
    : result Model :=
  model_type ← getitem model_dict "model_type";
  if eq_str model_type "<class 'hyperspy.models.eelsmodel.EELSModel'>" then
    model ← new EELSModel spectrum [] ∅;
    pop model
  else
    new Model_ spectrum [] ∅.

Definition create_model_from_dict (model_dict : gmap string pyval)
    : result Model :=
  spectrum ← build_spectrum model_dict;
  spectrum ← restore_calibration spectrum model_dict;
  model ← build_model spectrum model_dict;
  entries ← getitem model_dict "components";
  entries ← as_list entries;
  append_components model entries.

End factory.

End hspy.

(** ** The multi-position fit of the FitController *)

Module fit_controller.

(** The state machine of one navigation coordinate. *)
Inductive Status : Type := NotFit | Fitting | Converged | Failed.

(** The per-coordinate record. *)
Record FitState : Type :=
  { parameter_values : list Q; converged : bool; chisq : Q }.

Section multifit.

(** The observed signal at one navigation coordinate. *)
Variable signal : Type.

(** The Optimizer: from the data and an initial guess, the best estimate
    and the convergence flag (non-convergence is reported in the flag);
    a fatal input error (InvalidInitialGuess) is raised, and so is any
    violation of the parameter-vector contract. *)
Variable optimizer : signal -> list Q -> result (list Q * bool).

(** The chi-squared of a parameter vector against the data (derived, not
    stored, by the model). *)
Variable chi_squared : signal -> list Q -> Q.

(** Modelled from the spec: one visit of a coordinate by the FitController
    (the fitting engine is not among the sources).  Fitting -> Converged
    when the Optimizer reports convergence; Fitting -> Failed when it
    reports non-convergence or the fatal input error InvalidInitialGuess,
    and the last valid parameter values are retained.  Any other
    exception is a structural or contract violation (DimensionMismatch,
    DuplicateNameError, IndexOutOfRange): it is not caught and leaves the
    visit as raised. *)
Definition fit (guess : list Q) (observed : signal)
    : result (Status * FitState) :=
  match optimizer observed guess with
  | Ok (p, true) =>
      Ok (Converged, {| parameter_values := p; converged := true;
                        chisq := chi_squared observed p |})
  | Ok (p, false) =>
      Ok (Failed, {| parameter_values := p; converged := false;
                     chisq := chi_squared observed p |})
  | Raise InvalidInitialGuess =>
      Ok (Failed, {| parameter_values := guess; converged := false;
                     chisq := chi_squared observed guess |})
  | Raise e => Raise e
  end.

(** Modelled from the spec: [multifit] of the FitController (the fitting
    engine is not among the sources).  Iterates the navigation coordinates
    in the declared order; the initial guess of a coordinate is copied
    from the FitState of the coordinate visited before it (hot-start); it
    returns the per-coordinate records, unless a visit raises, which ends
    the run with that exception. *)
Fixpoint multifit (guess : list Q) (coordinates : list signal)
    : result (list (Status * FitState)) :=
  match coordinates with
  | [] => Ok []
  | observed :: rest =>
      r ← fit guess observed;
      rs ← multifit (parameter_values r.2) rest;
      Ok (r :: rs)
  end.

End multifit.

End fit_controller.


(** ** Vocabulary of the statements *)

Module netcdf_spec.
Import netcdf.

(** The keys of one axis record. *)
Definition axis_keys : gset string :=
  {[ "size"; "index_in_array"; "name"; "scale"; "offset"; "units" ]}.

(** The three groups of calibration keys, with the field of the axis
    record each one fills and the value the field falls back to. *)
Inductive group : Type := Scales | Origins | Units.

Definition group_keys (image : bool) (g : group) : list string :=
  match g, image with
  | Scales, true => ["zscale"; "yscale"; "xscale"]
  | Origins, true => ["zorigin"; "yorigin"; "xorigin"]
  | Units, true => ["zunits"; "yunits"; "xunits"]
  | Scales, false => ["yscale"; "xscale"; "energyscale"]
  | Origins, false => ["yorigin"; "xorigin"; "energyorigin"]
  | Units, false => ["yunits"; "xunits"; "energyunits"]
  end.

Definition group_field (g : group) : string :=
  match g with Scales => "scale" | Origins => "offset" | Units => "units" end.

Definition group_default (g : group) : pyval :=
  match g with Scales => PInt 1 | Origins => PInt 0 | Units => PStr "" end.

(** The keys of a group that a file of [dim] dimensions needs. *)
Definition required_keys (image : bool) (dim : nat) (g : group) : list string :=
  slice_from (3 - Z.of_nat dim) (group_keys image g).

(** Parts of the dictionary the reader returns. *)
Definition axes_of (d : gmap string pyval) : option (list pyval) :=
  match d !! "axes" with Some (PList l) => Some l | _ => None end.

Definition data_of (d : gmap string pyval) : option (ndarray pyval) :=
  match d !! "data" with Some (PArray a) => Some a | _ => None end.

Definition calibration_of (d : gmap string pyval) : option (gmap string pyval) :=
  match d !! "original_parameters" with
  | Some (PDict o) =>
      match o !! "calibration" with Some (PDict c) => Some c | _ => None end
  | _ => None
  end.

Definition is_image (d : gmap string pyval) : bool :=
  match d !! "mapped_parameters" with
  | Some (PDict m) =>
      match m !! "record_by" with Some v => eq_str v "image" | None => false end
  | _ => false
  end.

(** A file the reader can take: it has a 'data_cube' of at most three
    dimensions and a 'type', and no array-valued attribute is empty. *)
Definition readable (ncfile : Dataset) : Prop :=
  exists dc,
    variables ncfile !! "data_cube" = Some dc /\
    length (shape (var_data dc)) <= 3 /\
    is_Some (ds_attrs ncfile !! "type") /\
    forall k a, var_attrs dc !! k = Some (PArray a) -> is_Ok (first_item a).

(** A spectrum image of 10 by 100 channels, stored in Fortran order, whose
    file gives the energy calibration but no scale for X. *)
Definition example_file : Dataset :=
  {| ds_attrs :=
       <["file_format_version" := PStr "EELSLab 0.1"]>
       (<["type" := PStr "SI"]> ∅);
     variables :=
       {[ "data_cube" :=
            {| var_data := {| shape := [100; 10]; item := fun _ => PInt 0 |};
               var_attrs :=
                 <["energy_scale" := PFloat (1 # 2)]>
                 (<["energy_origin" := PFloat 100]>
                 (<["energy_units" := PStr "eV"]>
                 (<["x_origin" := PFloat 0]>
                 (<["x_units" := PStr "nm"]> ∅)))) |} ]} |}.

(** What the reader returns for it. *)
Definition example_dictionary : gmap string pyval :=
  match nc_hyperspy_reader_0dot1 example_file "/data/si.nc" with
  | Ok d => d
  | Raise _ => ∅
  end.

Definition example_calibration : gmap string pyval :=
  default ∅ (calibration_of example_dictionary).

Definition example_axes : list pyval :=
  default [] (axes_of example_dictionary).

End netcdf_spec.

Module eds_spec.

(** The sum of a list of numbers. *)
Definition Qsum (l : list Q) : Q := foldr Qplus 0%Q l.

(** [elements_db[element]['A']], when both keys are there. *)
Definition mass (elements_db : gmap string (gmap string Q)) (element : string)
    : option Q :=
  props ← elements_db !! element; props !! "A".

(** A table with aluminium and oxygen, and uninterpreted stand-ins for
    the two transcendental functions. *)
Definition example_db : gmap string (gmap string Q) :=
  <["Al" := <["A" := 27%Q]> (<["Z" := 13%Q]> (<["density" := 2.7%Q]> ∅))]>
  (<["O" := <["A" := 16%Q]> (<["Z" := 8%Q]> ∅)]> ∅).

Definition example_power (x y : Q) : Q := x.
Definition example_cos (x : Q) : Q := 1%Q.

End eds_spec.

Module axes_spec.
Import axes.

(** The axis of the alignment tests: 100 channels of 0.1 from -2. *)
Definition test_axis : axis :=
  {| size := 100; scale := 0.1%Q; offset := (-2)%Q; units := "";
     name := ""; index_in_array := 1 |}.

(** An axis that runs downwards: 0, -1, -2. *)
Definition descending_axis : axis :=
  {| size := 3; scale := (-1)%Q; offset := 0%Q; units := "";
     name := ""; index_in_array := 0 |}.

End axes_spec.

Module hspy_spec.
Import hspy.

(** What assigning a calibration leaves alone. *)
Definition same_frame (a a' : DataAxis) : Prop :=
  axes.size a' = axes.size a /\
  axes.name a' = axes.name a /\
  axes.index_in_array a' = axes.index_in_array a.

(** The calibration of [a] is the one the entry [e] gives. *)
Definition calibrated_from (e : pyval) (a : DataAxis) : Prop :=
  subscript e "scale" = Ok (axes.scale a) /\
  subscript e "offset" = Ok (axes.offset a) /\
  subscript e "units" = Ok (axes.units a).

(** The three assignments of the loop body, to one axis. *)
Definition assign (s o u : pyval) (a : DataAxis) : DataAxis :=
  set_units u (set_offset o (set_scale s a)).

(** No component added after position [n] takes the name of an active
    component before it. *)
Definition names_free (n : nat) (comps : list Component) : Prop :=
  forall i j ci cj,
    comps !! i = Some ci -> comps !! j = Some cj -> i < j -> n <= j ->
    active ci && same_name (name ci) (name cj) = false.

(** Stand-ins for the imported classes: a spectrum image with one
    navigation axis and one signal axis, an EELS model that starts with a
    power-law background, and three component classes. *)
Definition example_axes : list DataAxis :=
  [ {| axes.size := 10; axes.scale := PFloat 1; axes.offset := PFloat 0;
       axes.units := PNone; axes.name := PStr "x";
       axes.index_in_array := 0 |};
    {| axes.size := 100; axes.scale := PFloat 1; axes.offset := PFloat 0;
       axes.units := PNone; axes.name := PStr "Energy loss";
       axes.index_in_array := 1 |} ].

Definition example_signal (classes : list string) (d : gmap string pyval)
    : result Signal :=
  data ← getitem d "data";
  Ok {| mro := classes;
        axes_manager := {| _axes := example_axes;
                           navigation_axes := [0]; signal_axes := [1] |};
        data := data; mapped_parameters := ∅ |}.

Definition example_EELSSpectrum : gmap string pyval -> result Signal :=
  example_signal ["EELSSpectrum"; "Spectrum"; "Signal"; "object"].

Definition example_Spectrum : gmap string pyval -> result Signal :=
  example_signal ["Spectrum"; "Signal"; "object"].

Definition example_set_microscope_parameters (s : Signal)
    (beam_energy convergence_angle collection_angle : pyval) : result Signal :=
  Ok {| mro := mro s; axes_manager := axes_manager s; data := data s;
        mapped_parameters :=
          <["beam_energy" := beam_energy]>
          (<["convergence_angle" := convergence_angle]>
          (<["collection_angle" := collection_angle]> ∅)) |}.

Definition example_component (n : string) : Component :=
  {| name := PStr n; active := true; state := ∅ |}.

Definition example_EELSModel__init__ (s : Signal) (args : list pyval)
    (kwargs : gmap string pyval) : result (list Component) :=
  Ok [example_component "PowerLaw"].

Definition example_Model__init__ (s : Signal) (args : list pyval)
    (kwargs : gmap string pyval) : result (list Component) :=
  Ok [].

Definition example_components
    : gmap string (list pyval -> gmap string pyval -> result Component) :=
  <["Gaussian" := fun _ _ => Ok (example_component "Gaussian")]>
  (<["PowerLaw" := fun _ _ => Ok (example_component "PowerLaw")]>
  (<["EELSCLEdge" :=
       fun args kwargs =>
         match args with
         | [a] => Ok {| name := a; active := true; state := kwargs |}
         | _ => Raise TypeError
         end]> ∅)).

Definition example_entry (id n : string) : pyval :=
  PDict (<["_id_name" := PStr id]> (<["name" := PStr n]> ∅)).

Definition example_edge : pyval :=
  PDict (<["_id_name" := PStr "EELSCLEdge"]>
        (<["name" := PStr "C_K"]>
        (<["element" := PStr "C"]>
        (<["subshell" := PStr "K"]>
        (<["GOS" := PStr "hydrogenic"]> ∅))))).

Definition example_calibration (scale offset : Q) (units : string) : pyval :=
  PDict (<["scale" := PFloat scale]>
        (<["offset" := PFloat offset]>
        (<["units" := PStr units]> ∅))).

Definition example_model_dict : gmap string pyval :=
  <["spectrum_type" := PStr "<class 'hyperspy.signals.eels.EELSSpectrum'>"]>
  (<["spectrum" := PList []]>
  (<["spectrum_mapped_parameters" :=
       PDict {[ "TEM" :=
         PDict (<["beam_energy" := PFloat 200]>
               (<["convergence_angle" := PFloat 10]>
               (<["EELS" := PDict {[ "collection_angle" := PFloat 20 ]}]> ∅))) ]}]>
  (<["navigation_axes" := PList [example_calibration 2 0 "nm"]]>
  (<["signal_axes" := PList [example_calibration 0.5 100 "eV"]]>
  (<["model_type" := PStr "<class 'hyperspy.models.eelsmodel.EELSModel'>"]>
  (<["components" :=
       PList [example_entry "PowerLaw" "background"; example_edge;
              example_entry "Gaussian" "peak"]]> ∅)))))).

Definition example_create_model_from_dict : result Model :=
  create_model_from_dict example_EELSSpectrum example_Spectrum
    example_set_microscope_parameters example_EELSModel__init__
    example_Model__init__ example_components example_model_dict.

Definition example_model : Model :=
  match example_create_model_from_dict with
  | Ok m => m
  | Raise _ =>
      {| class_ := Model_;
         spectrum := {| mro := []; axes_manager := {| _axes := []; navigation_axes := []; signal_axes := [] |};
                        data := PNone; mapped_parameters := ∅ |};
         items := [] |}
  end.

Definition example_eels_signal : Signal :=
  {| mro := ["EELSSpectrum"; "Spectrum"; "Signal"; "object"];
     axes_manager := {| _axes := example_axes;
                        navigation_axes := [0]; signal_axes := [1] |};
     data := PList []; mapped_parameters := ∅ |}.

Definition example_restored : Signal :=
  match restore_calibration example_eels_signal example_model_dict with
  | Ok s => s
  | Raise _ => example_eels_signal
  end.

(** Constructors whose result shows what they were called with.  The
    EELS one takes the low-loss spectrum as its one optional positional
    argument (more is a TypeError) and adds the power law unless
    'auto_background' is 0; the component keeps the keywords and the
    positional arguments in its state.  The generic one takes no keyword
    and makes one component per positional argument, named by it. *)
Definition echo_EELSModel__init__ (s : Signal) (args : list pyval)
    (kwargs : gmap string pyval) : result (list Component) :=
  match args with
  | _ :: _ :: _ => Raise TypeError
  | _ =>
      match kwargs !! "auto_background" with
      | Some (PInt 0) => Ok []
      | _ => Ok [{| name := PStr "PowerLaw"; active := true;
                    state := <["args" := PList args]> kwargs |}]
      end
  end.

Definition echo_Model__init__ (s : Signal) (args : list pyval)
    (kwargs : gmap string pyval) : result (list Component) :=
  if decide (kwargs = ∅)
  then Ok (map (fun a => {| name := a; active := true; state := ∅ |}) args)
  else Raise TypeError.

Definition example_plain_signal : Signal :=
  {| mro := ["Spectrum"; "Signal"; "object"];
     axes_manager := {| _axes := example_axes;
                        navigation_axes := [0]; signal_axes := [1] |};
     data := PList []; mapped_parameters := ∅ |}.

End hspy_spec.

Module fit_spec.
Import fit_controller.

(** A stand-in Optimizer over one-number signals: a signal of zero has a
    singular Jacobian and is reported as not converged, the last valid
    estimate being the guess; an empty guess is an invalid one; any other
    signal converges to its own level. *)
Definition example_optimizer (observed : Q) (guess : list Q)
    : result (list Q * bool) :=
  match guess with
  | [] => Raise InvalidInitialGuess
  | _ => if Qeq_bool observed 0 then Ok (guess, false)
         else Ok ([observed], true)
  end.

Definition example_chi_squared (observed : Q) (p : list Q) : Q := 0.

(** The guess with which coordinate [i] of a run is entered, read off the
    run's records: the caller's guess at the first coordinate, and the
    parameter values the record before it retains at every other one. *)
Definition entry_guess (guess : list Q) (records : list (Status * FitState))
    (i : nat) : list Q :=
  match i with
  | O => guess
  | S j => match records !! j with
           | Some r => parameter_values r.2
           | None => guess
           end
  end.

(** An Optimizer that also checks the parameter-vector contract: a guess
    of more than one value for its one-parameter model is a
    DimensionMismatch. *)
Definition strict_optimizer (observed : Q) (guess : list Q)
    : result (list Q * bool) :=
  match guess with
  | _ :: _ :: _ => Raise (Other "DimensionMismatch")
  | _ => example_optimizer observed guess
  end.

End fit_spec.

Module netcdf_spec2.
Import netcdf.

(** The 'name' of an axis record and the 'record_by' the reader maps. *)
Definition axis_name (v : pyval) : option pyval :=
  match v with PDict ax => ax !! "name" | _ => None end.



(** [v] is what the loops store for an attribute of value [value]. *)
Definition stored (unwrap : bool) (value v : pyval) : Prop :=
  match value with
  | PArray a => if unwrap then first_item a = Ok v else v = value
  | _ => v = value
  end.

(** Opening the example file, whatever the path. *)
Definition example_open (filename : string) : result Dataset :=
  Ok netcdf_spec.example_file.

Definition example_warning_exit (message : string) : result unit :=
  Raise (Other "SystemExit").

End netcdf_spec2.

Module extras_spec.
Import netcdf.

(** A three-dimensional image stack whose file gives every scale, with
    the X scale as a one-element array. *)
Definition example_image_file : Dataset :=
  {| ds_attrs :=
       <["file_format_version" := PStr "EELSLab 0.1"]>
       (<["type" := PStr "Image"]> ∅);
     variables :=
       {[ "data_cube" :=
            {| var_data := {| shape := [64; 32; 5]; item := fun _ => PInt 0 |};
               var_attrs :=
                 <["x_scale" :=
                     PArray {| shape := [1]; item := fun _ => PFloat 0.5 |}]>
                 (<["y_scale" := PFloat 0.5]>
                 (<["z_scale" := PFloat 2]>
                 (<["x_units" := PStr "nm"]> ∅))) |} ]} |}.

Definition example_image_dictionary : gmap string pyval :=
  match nc_hyperspy_reader_0dot1 example_image_file "stack.nc" with
  | Ok d => d
  | Raise _ => ∅
  end.

Definition example_image_calibration : gmap string pyval :=
  default ∅ (netcdf_spec.calibration_of example_image_dictionary).

Definition example_image_axes : list pyval :=
  default [] (netcdf_spec.axes_of example_image_dictionary).

Definition example_image_cube : Variable_ :=
  default {| var_data := {| shape := []; item := fun _ => PNone |};
             var_attrs := ∅ |}
    (variables example_image_file !! "data_cube").

(** A file of four dimensions. *)
Definition example_4d_cube : Variable_ :=
  {| var_data := {| shape := [2; 3; 4; 5]; item := fun _ => PInt 0 |};
     var_attrs := ∅ |}.

Definition example_4d_file : Dataset :=
  {| ds_attrs := <["type" := PStr "Image"]> ∅;
     variables := {[ "data_cube" := example_4d_cube ]} |}.

(** A file of another format version. *)
Definition example_other_version : Dataset :=
  {| ds_attrs := <["file_format_version" := PStr "EELSLab 0.2"]> ∅;
     variables := ∅ |}.

(** A table with aluminium and manganese, and their K-alpha lines. *)
Definition example_elements : gmap string (gmap string Q) :=
  <["Al" := <["A" := 26.98%Q]> (<["Z" := 13%Q]> (<["density" := 2.7%Q]> ∅))]>
  (<["Mn" := <["A" := 54.94%Q]> (<["Z" := 25%Q]> (<["density" := 7.43%Q]> ∅))]> ∅).

Definition example_Xray_energy : gmap string (gmap string Q) :=
  <["Al" := <["Ka" := 1.4865%Q]> ∅]> (<["Mn" := <["Ka" := 5.8987%Q]> ∅]> ∅).

Definition example_sqrt (x : Q) : Q := x.

(** An entry of the model dictionary that lacks 'offset'. *)
Definition example_partial_entry : gmap string pyval :=
  <["scale" := PFloat 2]> (<["units" := PStr "nm"]> ∅).

End extras_spec.
(* ===================================================================== *)
(** * Part II. Properties                                                *)
(* ===================================================================== *)

(** ** The exception monad *)

Lemma bind_Ok {A B} (m : result A) (f : A -> result B) (b : B) :
  m ≫= f = Ok b -> exists a, m = Ok a /\ f a = Ok b.
Proof. destruct m as [a|e]; simpl; [eauto | discriminate]. Qed.

Lemma bind_Ok_eq {A B} (m : result A) (f : A -> result B) (a : A) :
  m = Ok a -> m ≫= f = f a.
Proof. now intros ->. Qed.

Lemma is_Ok_bind {A B} (m : result A) (f : A -> result B) :
  is_Ok m -> (forall a, m = Ok a -> is_Ok (f a)) -> is_Ok (m ≫= f).
Proof. intros [a ->] H. simpl. now apply H. Qed.

Section mapM_facts.
Context {A B : Type}.

Lemma mapM_Ok (f : A -> result B) (l : list A) (ys : list B) :
  mapM f l = Ok ys -> Forall2 (fun x y => f x = Ok y) l ys.
Proof.
  revert ys. induction l as [|x l IH]; intros ys H; simpl in H.
  - injection H as <-. constructor.
  - apply bind_Ok in H as (y & Hy & H).
    apply bind_Ok in H as (ys' & Hys & H).
    injection H as <-. constructor; auto.
Qed.

Lemma mapM_is_Ok (f : A -> result B) (l : list A) :
  (forall x, x ∈ l -> is_Ok (f x)) -> is_Ok (mapM f l).
Proof.
  induction l as [|x l IH]; intros H; simpl.
  - now exists [].
  - destruct (H x) as [y ->]; [left|]. simpl.
    destruct IH as [ys ->]; [intros; apply H; now right|].
    simpl. now eexists.
Qed.

End mapM_facts.

(** Inverts the successful binds of a hypothesis, naming nothing. *)
Ltac inv_bind H :=
  repeat match type of H with
         | _ ≫= _ = Ok _ =>
             let a := fresh "a" in
             let Ha := fresh "Ha" in
             apply bind_Ok in H as (a & Ha & H)
         end.

(** ** The netCDF reader *)

Section netcdf_facts.
Import netcdf netcdf_spec.

Lemma slice_from_length_le {A} (l : list A) (dim : nat) :
  length l = 3 -> dim <= 3 ->
  length (slice_from (3 - Z.of_nat dim) l) = dim.
Proof.
  intros Hl Hd. unfold slice_from.
  destruct (Z.ltb_spec (3 - Z.of_nat dim) 0); [lia|].
  rewrite length_drop. lia.
Qed.

Lemma slice_from_length_gt {A} (l : list A) (dim : nat) :
  length l = 3 -> 3 < dim ->
  length (slice_from (3 - Z.of_nat dim) l) < dim.
Proof.
  intros Hl Hd. unfold slice_from.
  destruct (Z.ltb_spec (3 - Z.of_nat dim) 0); rewrite length_drop; lia.
Qed.

Lemma slice_from_elem {A} (start : Z) (l : list A) (x : A) :
  x ∈ slice_from start l -> x ∈ l.
Proof.
  unfold slice_from. destruct (start <? 0)%Z; intros H;
    apply list_elem_of_lookup in H as [i H]; rewrite lookup_drop in H;
    apply list_elem_of_lookup; eauto.
Qed.

Lemma getitem_Some {V} (d : gmap string V) k v :
  d !! k = Some v -> getitem d k = Ok v.
Proof. unfold getitem. now intros ->. Qed.

Lemma getitem_None {V} (d : gmap string V) k :
  d !! k = None -> getitem d k = Raise (KeyError k).
Proof. unfold getitem. now intros ->. Qed.

(** A comprehension over dictionary keys fails on the first absent key,
    with KeyError, and in no other way. *)
Lemma mapM_getitem_missing {V} (d : gmap string V) (keys : list string) key :
  key ∈ keys -> d !! key = None ->
  exists k, mapM (getitem d) keys = Raise (KeyError k).
Proof.
  induction keys as [|k keys IH]; intros Hin Hnone.
  - inversion Hin.
  - cbn [mapM]. destruct (d !! k) as [v|] eqn:E.
    + rewrite (getitem_Some _ _ _ E).
      destruct IH as [k' Hk']; [|assumption|].
      { inversion Hin; subst; [congruence | assumption]. }
      rewrite Hk'. simpl. eauto.
    + rewrite (getitem_None _ _ E). simpl. eauto.
Qed.

Lemma mapM_getitem_cases {V} (d : gmap string V) (keys : list string) :
  (exists l, mapM (getitem d) keys = Ok l /\ length l = length keys) \/
  (exists k, mapM (getitem d) keys = Raise (KeyError k)).
Proof.
  induction keys as [|k keys IH]; cbn [mapM].
  - left. now exists [].
  - destruct (d !! k) as [v|] eqn:E;
      [rewrite (getitem_Some _ _ _ E)
      |rewrite (getitem_None _ _ E); right; simpl; eauto].
    destruct IH as [(l & Hl' & Hl) | (k' & Hk')]; rewrite ?Hl', ?Hk'; simpl.
    + left. exists (v :: l). split; [reflexivity | simpl; lia].
    + right. eauto.
Qed.

(** The fallback of a group: one absent key discards every value read. *)
Lemma lookup_keys_missing cal keys default key :
  key ∈ keys -> cal !! key = None -> lookup_keys cal keys default = Ok default.
Proof.
  intros Hin Hnone. unfold lookup_keys.
  destruct (mapM_getitem_missing cal keys key Hin Hnone) as [k ->].
  reflexivity.
Qed.

Lemma lookup_keys_cases cal keys default :
  (exists l, lookup_keys cal keys default = Ok l /\ length l = length keys) \/
  lookup_keys cal keys default = Ok default.
Proof.
  unfold lookup_keys.
  destruct (mapM_getitem_cases cal keys) as [(l & -> & Hl) | (k & ->)];
    simpl; eauto.
Qed.

Lemma lookup_keys_length cal keys default l :
  length default = length keys ->
  lookup_keys cal keys default = Ok l -> length l = length keys.
Proof.
  intros Hd H.
  destruct (lookup_keys_cases cal keys default) as [(l' & E & Hl) | E];
    rewrite E in H; injection H as <-; assumption.
Qed.

Lemma read_attribs_is_Ok unwrap items dc acc :
  (forall k a, var_attrs dc !! k = Some (PArray a) -> is_Ok (first_item a)) ->
  is_Ok (read_attribs unwrap items dc acc).
Proof.
  intros Harr. revert acc.
  induction items as [|attrib rest IH]; intros acc; simpl.
  - now exists acc.
  - destruct (var_attrs dc !! attrib.2) as [value|] eqn:E; [|apply IH].
    apply is_Ok_bind; [|intros; apply IH].
    destruct value; try (eexists; reflexivity).
    destruct unwrap; [eapply Harr; eassumption | eexists; reflexivity].
Qed.

(** What an axis record holds. *)
Lemma axis_entry_Ok data names scales origins units i v :
  axis_entry data names scales origins units i = Ok v ->
  exists ax n,
    v = PDict ax /\ dom ax = axis_keys /\
    shape data !! i = Some n /\
    ax !! "size" = Some (PInt (Z.of_nat n)) /\
    ax !! "index_in_array" = Some (PInt (Z.of_nat i)) /\
    ax !! "scale" = scales !! i /\
    ax !! "offset" = origins !! i /\
    ax !! "units" = units !! i.
Proof.
  unfold axis_entry, index. intros H.
  destruct (shape data !! i) as [n|]; [|discriminate].
  destruct (names !! i) as [nm|]; [|discriminate].
  destruct (scales !! i) as [sc|]; [|discriminate].
  destruct (origins !! i) as [og|]; [|discriminate].
  destruct (units !! i) as [un|]; [|discriminate].
  simpl in H. injection H as <-.
  eexists _, n. split; [reflexivity|].
  split; [|repeat split; reflexivity].
  unfold axis_keys. rewrite !dom_insert_L, dom_empty_L. set_solver.
Qed.

Lemma axis_entry_is_Ok data names scales origins units i :
  i < length (shape data) -> i < length names -> i < length scales ->
  i < length origins -> i < length units ->
  is_Ok (axis_entry data names scales origins units i).
Proof.
  intros H1 H2 H3 H4 H5. unfold axis_entry, index.
  apply lookup_lt_is_Some_2 in H1 as [? ->], H2 as [? ->], H3 as [? ->],
    H4 as [? ->], H5 as [? ->].
  simpl. eexists; reflexivity.
Qed.

(** The reader, taken apart. *)
Lemma reader_Ok ncfile filename d :
  nc_hyperspy_reader_0dot1 ncfile filename = Ok d ->
  exists dc cal type_ scales origins units axes,
    let dim := length (shape (var_data dc)) in
    let image := eq_str type_ "Image" in
    let start := (3 - Z.of_nat dim)%Z in
    variables ncfile !! "data_cube" = Some dc /\
    ds_attrs ncfile !! "type" = Some type_ /\
    read_attribs true attrib2netcdf dc ∅ = Ok cal /\
    lookup_keys cal (required_keys image dim Scales)
      (slice_from start [PInt 1; PInt 1; PInt 1]) = Ok scales /\
    lookup_keys cal (required_keys image dim Origins)
      (slice_from start [PInt 0; PInt 0; PInt 0]) = Ok origins /\
    lookup_keys cal (required_keys image dim Units)
      [PStr ""; PStr ""; PStr ""] = Ok units /\
    mapM (axis_entry (transpose (var_data dc))
            (slice_from start
               (if image then ["Z"; "Y"; "X"] else ["Y"; "X"; "Energy"]))
            scales origins units) (seq 0 dim) = Ok axes /\
    axes_of d = Some axes /\
    data_of d = Some (transpose (var_data dc)) /\
    calibration_of d = Some cal /\
    is_image d = image.
Proof.
  unfold nc_hyperspy_reader_0dot1. intros H.
  apply bind_Ok in H as (dc & Hdc & H).
  apply bind_Ok in H as (cal & Hcal & H).
  apply bind_Ok in H as (acq & Hacq & H).
  apply bind_Ok in H as (tre & Htre & H).
  apply bind_Ok in H as (type_ & Hty & H).
  unfold getitem in Hdc.
  destruct (variables ncfile !! "data_cube") as [dc'|] eqn:Edc;
    [injection Hdc as -> | discriminate].
  unfold getattr in Hty.
  destruct (ds_attrs ncfile !! "type") as [ty'|] eqn:Ety;
    [injection Hty as -> | discriminate].
  exists dc, cal, type_.
  assert (Hparts : forall (da : ndarray pyval) ax mp (ca aq tr : gmap string pyval),
    let d' : gmap string pyval :=
      <["data" := PArray da]>
      (<["axes" := PList ax]>
      (<["mapped_parameters" := PDict mp]>
      (<["original_parameters" :=
           PDict (<["record_by" := type_]>
                 (<["calibration" := PDict ca]>
                 (<["acquisition" := PDict aq]>
                 (<["treatments" := PDict tr]> ∅))))]> ∅))) in
    axes_of d' = Some ax /\ data_of d' = Some da /\
    calibration_of d' = Some ca /\
    d' !! "mapped_parameters" = Some (PDict mp)).
  { intros. unfold axes_of, data_of, calibration_of. subst d'.
    repeat (rewrite ?lookup_insert_eq;
            try (rewrite lookup_insert_ne by discriminate)).
    auto. }
  destruct (eq_str type_ "Image") eqn:Eimg; cbv beta iota zeta in H.
  - rewrite (bool_decide_true ("image" = "image")) in H by reflexivity.
    cbv beta iota zeta in H.
    apply bind_Ok in H as (scales & Hsc & H).
    apply bind_Ok in H as (origins & Hor & H).
    apply bind_Ok in H as (units & Hun & H).
    apply bind_Ok in H as (axes & Hax & H).
    injection H as <-.
    exists scales, origins, units, axes. cbv zeta.
    edestruct Hparts as (Ha & Hd & Hc & Hm).
    unfold is_image. rewrite Hm, lookup_insert_ne, lookup_insert_eq by discriminate.
    repeat (split; [first [eassumption | reflexivity]|]). reflexivity.
  - rewrite (bool_decide_false ("spectrum" = "image")) in H by discriminate.
    cbv beta iota zeta in H.
    apply bind_Ok in H as (scales & Hsc & H).
    apply bind_Ok in H as (origins & Hor & H).
    apply bind_Ok in H as (units & Hun & H).
    apply bind_Ok in H as (axes & Hax & H).
    injection H as <-.
    exists scales, origins, units, axes. cbv zeta.
    edestruct Hparts as (Ha & Hd & Hc & Hm).
    unfold is_image. rewrite Hm, lookup_insert_ne, lookup_insert_eq by discriminate.
    repeat (split; [first [eassumption | reflexivity]|]). reflexivity.
Qed.

(** A dimension beyond the third has no name: such a file is refused. *)
Lemma reader_dim_shape dc (ty : pyval) sc og un axes :
  Forall2 (fun i v =>
      axis_entry (transpose (var_data dc))
        (slice_from (3 - Z.of_nat (length (shape (var_data dc))))
           (if eq_str ty "Image" then ["Z"; "Y"; "X"] else ["Y"; "X"; "Energy"]))
        sc og un i = Ok v)
    (seq 0 (length (shape (var_data dc)))) axes ->
  length (shape (var_data dc)) <= 3.
Proof.
  intros Hax.
  destruct (le_gt_dec (length (shape (var_data dc))) 3) as [|Hgt]; [assumption|].
  exfalso.
  set (names := slice_from _ _) in Hax.
  assert (Hn : length names < length (shape (var_data dc))).
  { apply slice_from_length_gt; [|lia]. now destruct (eq_str ty "Image"). }
  destruct (Forall2_lookup_l _ _ _ (length names) (length names) Hax)
    as (v & _ & Hv).
  { rewrite lookup_seq_lt by lia. reflexivity. }
  unfold axis_entry, index in Hv.
  destruct (shape (transpose (var_data dc)) !! length names); [|discriminate].
  rewrite (lookup_ge_None_2 names) in Hv by lia. discriminate.
Qed.

Lemma reader_dim ncfile filename d dc :
  nc_hyperspy_reader_0dot1 ncfile filename = Ok d ->
  variables ncfile !! "data_cube" = Some dc ->
  length (shape (var_data dc)) <= 3.
Proof.
  intros H Hdc.
  apply reader_Ok in H
    as (dc' & cal & ty & sc & og & un & axes & Hdc' & _ & _ & _ & _ & _ & Hax & _).
  rewrite Hdc in Hdc'. injection Hdc' as <-.
  apply mapM_Ok in Hax. eapply reader_dim_shape. exact Hax.
Qed.

Lemma lookup_keys_min cal keys default n :
  n <= length keys -> n <= length default ->
  exists l, lookup_keys cal keys default = Ok l /\ n <= length l.
Proof.
  intros Hk Hd.
  destruct (lookup_keys_cases cal keys default) as [(l & E & Hl) | E];
    rewrite E; eexists; split; try reflexivity; lia.
Qed.

(** X1. Every readable file is read: a file with a 'data_cube' of at most
    three dimensions and a 'type', none of whose array attributes is
    empty, always yields a dictionary. *)
Lemma reader_accepts ncfile filename :
  readable ncfile -> is_Ok (nc_hyperspy_reader_0dot1 ncfile filename).
Proof.
  intros (dc & Hdc & Hdim & [ty Hty] & Harr).
  unfold nc_hyperspy_reader_0dot1.
  rewrite (getitem_Some _ _ _ Hdc). cbn [mbind result_bind].
  apply is_Ok_bind; [now apply read_attribs_is_Ok | intros cal _].
  apply is_Ok_bind; [now apply read_attribs_is_Ok | intros acq _].
  apply is_Ok_bind; [now apply read_attribs_is_Ok | intros tre _].
  unfold getattr. rewrite Hty. cbn [mbind result_bind].
  set (dim := length (shape (var_data dc))) in *.
  assert (Hs : forall {A} (l : list A), length l = 3 ->
               dim <= length (slice_from (3 - Z.of_nat dim) l)).
  { intros A l Hl. now rewrite slice_from_length_le. }
  assert (Hdata : dim <= length (shape (transpose (var_data dc)))).
  { unfold transpose. simpl. rewrite length_rev. fold dim. lia. }
  destruct (eq_str ty "Image") eqn:Eimg; cbv beta iota zeta.
  - rewrite (bool_decide_true ("image" = "image")) by reflexivity.
    cbv beta iota zeta.
    repeat lazymatch goal with
    | |- is_Ok (lookup_keys ?c ?ks ?df ≫= _) =>
        let l := fresh "l" in
        let E := fresh "E" in
        let Hl := fresh "Hl" in
        destruct (lookup_keys_min c ks df dim) as (l & E & Hl);
        [first [now apply Hs | simpl; lia] ..
        | rewrite E; cbn [mbind result_bind]]
    end.
    apply is_Ok_bind; [|intros; eexists; reflexivity].
    apply mapM_is_Ok. intros i Hi. apply elem_of_seq in Hi.
    apply axis_entry_is_Ok; try lia.
    specialize (Hs _ ["Z"; "Y"; "X"] eq_refl). lia.
  - rewrite (bool_decide_false ("spectrum" = "image")) by discriminate.
    cbv beta iota zeta.
    repeat lazymatch goal with
    | |- is_Ok (lookup_keys ?c ?ks ?df ≫= _) =>
        let l := fresh "l" in
        let E := fresh "E" in
        let Hl := fresh "Hl" in
        destruct (lookup_keys_min c ks df dim) as (l & E & Hl);
        [first [now apply Hs | simpl; lia] ..
        | rewrite E; cbn [mbind result_bind]]
    end.
    apply is_Ok_bind; [|intros; eexists; reflexivity].
    apply mapM_is_Ok. intros i Hi. apply elem_of_seq in Hi.
    apply axis_entry_is_Ok; try lia.
    specialize (Hs _ ["Y"; "X"; "Energy"] eq_refl). lia.
Qed.

Lemma rev_lookup_Some {A} (l : list A) (i : nat) (x : A) :
  rev l !! i = Some x <-> l !! (length l - S i) = Some x /\ i < length l.
Proof. rewrite rev_alt. apply reverse_lookup_Some. Qed.

(** C2. For every EELSLab-0.1 file that the reader accepts, the 'data' of
    the returned dictionary is the file's data_cube transposed: its shape
    is the shape of the data_cube in reverse order and its item at an
    index is the data_cube's item at the reversed index.  The 'axes'
    value is a sequence with exactly one entry per dimension of that
    transposed array; the i-th entry is a record whose keys are exactly
    size, index_in_array, name, scale, offset and units, whose size is
    the shape of the transposed array along dimension i, which is the
    extent of the data_cube along its dimension i counted from the last,
    and whose index_in_array is i. *)
Theorem reader_axes_per_dimension ncfile filename d :
  nc_hyperspy_reader_0dot1 ncfile filename = Ok d ->
  exists dc data axes,
    variables ncfile !! "data_cube" = Some dc /\
    data_of d = Some data /\ axes_of d = Some axes /\
    shape data = rev (shape (var_data dc)) /\
    (forall idx, item data idx = item (var_data dc) (rev idx)) /\
    length axes = length (shape data) /\
    forall i n, shape data !! i = Some n ->
      shape (var_data dc) !! (length (shape (var_data dc)) - S i) = Some n /\
      exists ax,
        axes !! i = Some (PDict ax) /\ dom ax = axis_keys /\
        ax !! "size" = Some (PInt (Z.of_nat n)) /\
        ax !! "index_in_array" = Some (PInt (Z.of_nat i)).
Proof.
  intros H.
  apply reader_Ok in H
    as (dc & cal & ty & sc & og & un & axes & Hdc & _ & _ & _ & _ & _ & Hax
        & Haxes & Hdata & _).
  exists dc, (transpose (var_data dc)), axes.
  apply mapM_Ok in Hax.
  assert (Hshape : length (shape (transpose (var_data dc)))
                   = length (shape (var_data dc))).
  { unfold transpose. cbn [shape]. apply length_rev. }
  assert (Hlen : length axes = length (shape (transpose (var_data dc)))).
  { now rewrite <- (Forall2_length _ _ _ Hax), length_seq. }
  split; [assumption|]. split; [assumption|]. split; [assumption|].
  split; [reflexivity|]. split; [reflexivity|]. split; [assumption|].
  intros i n Hi.
  assert (Hlt : i < length (shape (var_data dc))).
  { apply lookup_lt_Some in Hi. lia. }
  split.
  { unfold transpose in Hi. cbn [shape] in Hi.
    now apply rev_lookup_Some in Hi as [Hi _]. }
  destruct (Forall2_lookup_l _ _ _ i i Hax) as (v & Hv & Hentry).
  { rewrite lookup_seq_lt by assumption. reflexivity. }
  apply axis_entry_Ok in Hentry
    as (ax & n' & -> & Hdom & Hn' & Hsize & Hidx & _).
  rewrite Hi in Hn'. injection Hn' as <-.
  exists ax. auto.
Qed.

(** The value a group falls back to, at every position that is read. *)
Lemma default_lookup (g : group) (dim i : nat) (l : list pyval) :
  dim <= 3 -> i < dim ->
  l = slice_from (3 - Z.of_nat dim) (replicate 3 (group_default g)) \/
  l = replicate 3 (group_default g) ->
  l !! i = Some (group_default g).
Proof.
  intros Hd Hi Hl.
  assert (Hall : forall x, x ∈ l -> x = group_default g).
  { intros x Hx. destruct Hl as [-> | ->].
    - apply slice_from_elem in Hx. now apply elem_of_replicate in Hx.
    - now apply elem_of_replicate in Hx. }
  destruct (l !! i) as [v|] eqn:Ev.
  - f_equal. apply Hall. eapply list_elem_of_lookup_2. eassumption.
  - exfalso. apply lookup_ge_None_1 in Ev.
    destruct Hl as [-> | ->].
    + rewrite slice_from_length_le in Ev; [lia | apply length_replicate | lia].
    + rewrite length_replicate in Ev. lia.
Qed.

(** C10. The fallback for a missing calibration is per group, not per
    key: when one of the keys that a group requires is absent from the
    calibration dictionary, the field of that group is the default in
    every axis record (scale 1, offset 0, units the empty string), also
    for the axes whose own key is present. *)
Theorem fallback_is_groupwise ncfile filename d cal axes g key :
  nc_hyperspy_reader_0dot1 ncfile filename = Ok d ->
  calibration_of d = Some cal -> axes_of d = Some axes ->
  key ∈ required_keys (is_image d) (length axes) g -> cal !! key = None ->
  forall i ax, axes !! i = Some (PDict ax) ->
    ax !! group_field g = Some (group_default g).
Proof.
  intros H Hcal Haxes Hkey Hnone i ax Hi.
  apply reader_Ok in H
    as (dc & cal' & ty & sc & og & un & axes' & _ & _ & _ & Hsc & Hog & Hun
        & Hax & Haxes' & _ & Hcal' & Himg).
  rewrite Hcal in Hcal'. injection Hcal' as <-.
  rewrite Haxes in Haxes'. injection Haxes' as <-.
  apply mapM_Ok in Hax.
  assert (Hlen : length axes = length (shape (var_data dc))).
  { now rewrite <- (Forall2_length _ _ _ Hax), length_seq. }
  rewrite Himg, Hlen in Hkey.
  pose proof (reader_dim_shape dc ty _ _ _ _ Hax) as Hd.
  destruct (Forall2_lookup_r _ _ _ i _ Hax Hi) as (j & Hj & Hentry).
  apply lookup_seq in Hj as [-> Hlt]. cbn [Nat.add] in Hentry.
  apply axis_entry_Ok in Hentry
    as (ax' & n & [= <-] & _ & Hn & _ & _ & Hscale & Hoffset & Hunits).
  destruct g; cbn [group_field].
  - rewrite (lookup_keys_missing _ _ _ _ Hkey Hnone) in Hsc.
    injection Hsc as <-. rewrite Hscale.
    apply (default_lookup Scales (length (shape (var_data dc)))); auto.
  - rewrite (lookup_keys_missing _ _ _ _ Hkey Hnone) in Hog.
    injection Hog as <-. rewrite Hoffset.
    apply (default_lookup Origins (length (shape (var_data dc)))); auto.
  - rewrite (lookup_keys_missing _ _ _ _ Hkey Hnone) in Hun.
    injection Hun as <-. rewrite Hunits.
    apply (default_lookup Units (length (shape (var_data dc)))); auto.
Qed.

(** The data_cube of the example file has shape (100, 10): the array
    returned has shape (10, 100), and the two axis records have the
    sizes 10 and 100, in this order. *)
Lemma reader_axes_per_dimension_witness :
  exists dc data axes,
    variables example_file !! "data_cube" = Some dc /\
    data_of example_dictionary = Some data /\
    axes_of example_dictionary = Some axes /\
    shape (var_data dc) = [100; 10] /\ shape data = [10; 100] /\
    (forall idx, item data idx = item (var_data dc) (rev idx)) /\
    length axes = 2 /\
    exists ax0 ax1,
      axes !! 0 = Some (PDict ax0) /\ axes !! 1 = Some (PDict ax1) /\
      ax0 !! "size" = Some (PInt 10) /\ ax1 !! "size" = Some (PInt 100) /\
      ax0 !! "index_in_array" = Some (PInt 0) /\
      ax1 !! "index_in_array" = Some (PInt 1).
Proof.
  destruct (reader_axes_per_dimension example_file "/data/si.nc"
              example_dictionary)
    as (dc & data & axes & Hdc & Hdata & Haxes & Hshape & Hitem & Hlen & Hrec);
    [vm_compute; reflexivity|].
  assert (Hfile : shape (var_data dc) = [100; 10]).
  { vm_compute in Hdc. injection Hdc as <-. reflexivity. }
  rewrite Hfile in Hshape. cbn [rev app] in Hshape.
  exists dc, data, axes.
  split; [exact Hdc|]. split; [exact Hdata|]. split; [exact Haxes|].
  split; [exact Hfile|]. split; [exact Hshape|]. split; [exact Hitem|].
  split; [now rewrite Hlen, Hshape|].
  destruct (Hrec 0 10) as (_ & ax0 & H0 & _ & Hs0 & Hi0);
    [now rewrite Hshape|].
  destruct (Hrec 1 100) as (_ & ax1 & H1 & _ & Hs1 & Hi1);
    [now rewrite Hshape|].
  exists ax0, ax1. auto 10.
Defined.

Lemma fallback_is_groupwise_witness :
  example_calibration !! "xscale" = None /\
  is_Some (example_calibration !! "energyscale") /\
  forall i ax, example_axes !! i = Some (PDict ax) ->
    ax !! "scale" = Some (PInt 1).
Proof.
  split; [vm_compute; reflexivity|].
  split; [vm_compute; eexists; reflexivity|].
  apply (fallback_is_groupwise example_file "/data/si.nc" example_dictionary
           example_calibration example_axes Scales "xscale").
  - vm_compute. reflexivity.
  - vm_compute. reflexivity.
  - vm_compute. reflexivity.
  - vm_compute. constructor.
  - vm_compute. reflexivity.
Defined.

End netcdf_facts.

(** ** The EDS utilities *)

Section eds_facts.
Import eds_utils eds_spec.

Variable elements_db : gmap string (gmap string Q).

Lemma element_property_mass element a :
  mass elements_db element = Some a ->
  element_property elements_db element "A" = Ok a.
Proof.
  unfold mass, element_property, getitem.
  destruct (elements_db !! element) as [props|]; [|discriminate].
  cbn. now intros ->.
Qed.

Lemma load_None var : load var None = Raise (UnboundLocalError var).
Proof. reflexivity. Qed.

(** A density given by the caller leaves [Z] and [A] unassigned. *)
Lemma electron_range_rho power cos_radians element beam_energy r tilt :
  electron_range elements_db power cos_radians element beam_energy (Some r) tilt
  = Raise (UnboundLocalError "A").
Proof. reflexivity. Qed.

(** With the default density the range is computed for every element the
    table describes. *)
Lemma electron_range_default power cos_radians element beam_energy tilt
    props rho Z A :
  elements_db !! element = Some props ->
  props !! "density" = Some rho -> props !! "Z" = Some Z ->
  props !! "A" = Some A ->
  electron_range elements_db power cos_radians element beam_energy None tilt
  = Ok (0.0276 * A / power Z 0.89 / rho *
        power beam_energy 1.67 * cos_radians tilt)%Q.
Proof.
  intros He Hr HZ HA. unfold electron_range, element_property, getitem.
  rewrite He. cbn. rewrite Hr, HZ, HA. reflexivity.
Qed.

(** C8. Calling electron_range with a density (rho not None) always fails
    with an unbound-variable error before it returns, because Z and A are
    assigned only in the branch taken when rho is None; the function
    succeeds only when rho is None. *)
Theorem electron_range_needs_default_rho power cos_radians element
    beam_energy tilt :
  (forall r,
     electron_range elements_db power cos_radians element beam_energy
       (Some r) tilt = Raise (UnboundLocalError "A")) /\
  (forall rho,
     is_Ok (electron_range elements_db power cos_radians element beam_energy
              rho tilt) -> rho = None).
Proof.
  split; [intros r; apply electron_range_rho|].
  intros [r|] [v Hv]; [|reflexivity].
  rewrite electron_range_rho in Hv. discriminate.
Qed.

End eds_facts.

Lemma electron_range_needs_default_rho_witness :
  eds_utils.electron_range eds_spec.example_db eds_spec.example_power
    eds_spec.example_cos "Al" 10 (Some 2.7%Q) 0
  = Raise (UnboundLocalError "A") /\
  is_Ok (eds_utils.electron_range eds_spec.example_db eds_spec.example_power
           eds_spec.example_cos "Al" 10 None 0).
Proof.
  pose proof (electron_range_needs_default_rho eds_spec.example_db
                eds_spec.example_power eds_spec.example_cos "Al" 10 0)
    as [Hsome Hnone].
  split; [apply Hsome|].
  assert (Hok : is_Ok (eds_utils.electron_range eds_spec.example_db
                         eds_spec.example_power eds_spec.example_cos
                         "Al" 10 None 0)).
  { vm_compute. eexists. reflexivity. }
  pose proof (Hnone None Hok). exact Hok.
Defined.

Section composition_facts.
Import eds_utils eds_spec.

Variable elements_db : gmap string (gmap string Q).

Lemma Qsum_fold_left (xs : list Q) (acc : Q) :
  (fold_left Qplus xs acc == acc + Qsum xs)%Q.
Proof.
  revert acc. induction xs as [|x xs IH]; intros acc; simpl.
  - ring.
  - rewrite IH. unfold Qsum. simpl. ring.
Qed.

Lemma div_Ok (x y : Q) : ~ (y == 0)%Q -> div x y = Ok (x / y)%Q.
Proof.
  intros Hy. unfold div. destruct (Qeq_bool y 0) eqn:E; [|reflexivity].
  apply Qeq_bool_iff in E. contradiction.
Qed.

Lemma div_zero (x y : Q) : (y == 0)%Q -> div x y = Raise ZeroDivisionError.
Proof.
  intros Hy. unfold div. now rewrite (proj2 (Qeq_bool_iff y 0) Hy).
Qed.

(** The summing loop, for a per-element expression [term] that evaluates
    to [t]. *)
Lemma tot_loop_Ok term (t : Q -> Q -> Q) els : forall cs masses pre tot,
  Forall2 (fun e a => mass elements_db e = Some a) els masses ->
  length cs = length els ->
  Forall2 (fun c a => term c a = Ok (t c a)) cs masses ->
  tot_loop elements_db term (length pre) els (pre ++ cs) tot
  = Ok (fold_left Qplus (zip_with t cs masses) tot).
Proof.
  induction els as [|e els IH]; intros cs masses pre tot Hm Hlen Ht.
  - destruct cs; [|discriminate]. reflexivity.
  - destruct cs as [|c cs]; [discriminate|].
    inversion Hm as [|? a ? masses' Ha Hm']; subst.
    inversion Ht as [|? ? ? ? Hca Ht']; subst.
    cbn [tot_loop]. unfold index. rewrite list_lookup_middle by reflexivity.
    cbn [mbind result_bind].
    rewrite (element_property_mass _ _ _ Ha). cbn [mbind result_bind].
    rewrite Hca. cbn [mbind result_bind].
    replace (S (length pre)) with (length (pre ++ [c]))
      by (rewrite length_app; simpl; lia).
    rewrite (cons_middle c pre cs), app_assoc.
    rewrite IH with (masses := masses'); auto.
Qed.

Lemma mul_terms (cs masses : list Q) :
  length cs = length masses ->
  Forall2 (fun c a => (Ok (c * a)%Q : result Q) = Ok (c * a)%Q) cs masses.
Proof.
  revert masses. induction cs as [|c cs IH]; intros [|a masses] Hlen;
    try discriminate; constructor; auto.
Qed.

End composition_facts.

(** ** The calibrated axis *)

Section axis_facts.
Import axes axes_spec.

Lemma round_neg (x : Q) : (x < 0)%Q -> (round x <= 0)%Z.
Proof.
  intros Hx. unfold round.
  destruct (Qle_bool 0 x) eqn:E; [apply Qle_bool_iff in E; lra|].
  unfold Qceiling.
  assert (Qfloor (inject_Z 0) <= Qfloor (- (x - (1 # 2))))%Z as H.
  { apply Qfloor_resp_le. change (inject_Z 0) with 0%Q. lra. }
  rewrite Qfloor_Z in H. lia.
Qed.

Lemma round_above (x : Q) (n : Z) :
  (0 <= n)%Z -> (inject_Z n < x)%Q -> (n <= round x)%Z.
Proof.
  intros Hn Hx. unfold round.
  assert (0 <= inject_Z n)%Q by (change 0%Q with (inject_Z 0); rewrite <- Zle_Qle; exact Hn).
  destruct (Qle_bool 0 x) eqn:E.
  - rewrite <- (Qfloor_Z n). apply Qfloor_resp_le. lra.
  - assert (Qle_bool 0 x = true) by (apply Qle_bool_iff; lra). congruence.
Qed.

Lemma low_value_pos (ax : axis) :
  (0 < scale ax)%Q -> 1 <= size ax -> (low_value ax == offset ax)%Q.
Proof.
  intros Hs Hn. unfold low_value. apply Q.min_l.
  assert (0 <= inject_Z (Z.of_nat (size ax) - 1))%Q.
  { change 0%Q with (inject_Z 0). rewrite <- Zle_Qle. lia. }
  assert (0 <= inject_Z (Z.of_nat (size ax) - 1) * scale ax)%Q
    by (apply Qmult_le_0_compat; lra).
  lra.
Qed.

Lemma high_value_pos (ax : axis) :
  (0 < scale ax)%Q -> 1 <= size ax ->
  (high_value ax
   == offset ax + inject_Z (Z.of_nat (size ax) - 1) * scale ax)%Q.
Proof.
  intros Hs Hn. unfold high_value. apply Q.max_r.
  assert (0 <= inject_Z (Z.of_nat (size ax) - 1))%Q.
  { change 0%Q with (inject_Z 0). rewrite <- Zle_Qle. lia. }
  assert (0 <= inject_Z (Z.of_nat (size ax) - 1) * scale ax)%Q
    by (apply Qmult_le_0_compat; lra).
  lra.
Qed.

(** C4, as amended. For every axis of positive scale (and size at least
    1) and every query value v, index_at answers an index: 0 when v is
    below the least value of the axis, size-1 when v is above the
    greatest. *)
Theorem index_at_clamps (ax : axis) (v : Q) :
  (0 < scale ax)%Q -> 1 <= size ax ->
  ((v < low_value ax)%Q -> index_at ax v = 0%Z) /\
  ((high_value ax < v)%Q -> index_at ax v = (Z.of_nat (size ax) - 1)%Z) /\
  (0 <= index_at ax v <= Z.of_nat (size ax) - 1)%Z.
Proof.
  intros Hs Hn. split; [|split].
  - intros Hv. rewrite (low_value_pos ax Hs Hn) in Hv.
    assert (Hq : ((v - offset ax) / scale ax < 0)%Q).
    { apply Qlt_shift_div_r; [exact Hs | lra]. }
    apply round_neg in Hq. unfold index_at, clamp. lia.
  - intros Hv. rewrite (high_value_pos ax Hs Hn) in Hv.
    assert (Hq : (inject_Z (Z.of_nat (size ax) - 1)
                  < (v - offset ax) / scale ax)%Q).
    { apply Qlt_shift_div_l; [exact Hs | lra]. }
    apply round_above in Hq; [|lia]. unfold index_at, clamp. lia.
  - unfold index_at, clamp. lia.
Qed.

(** The claim C4 as stated, for every axis, fails on an axis that runs
    downwards: -5 is below its least value -2, and the nearest index is
    the last one, 2, not 0. *)
Lemma index_at_below_descending_axis :
  ~ (forall (ax : axis) (v : Q),
       (v < low_value ax)%Q -> index_at ax v = 0%Z).
Proof.
  intros H.
  assert (Hv : (-5 < low_value descending_axis)%Q) by (vm_compute; reflexivity).
  specialize (H descending_axis (-5)%Q Hv).
  vm_compute in H. discriminate.
Qed.

(** On an axis of negative scale the two ends change places. *)
Lemma index_at_clamps_descending (ax : axis) (v : Q) :
  (scale ax < 0)%Q -> 1 <= size ax ->
  ((v < low_value ax)%Q -> index_at ax v = (Z.of_nat (size ax) - 1)%Z) /\
  ((high_value ax < v)%Q -> index_at ax v = 0%Z).
Proof.
  intros Hs Hn.
  assert (H0 : (0 <= inject_Z (Z.of_nat (size ax) - 1))%Q).
  { change 0%Q with (inject_Z 0). rewrite <- Zle_Qle. lia. }
  assert (Hp : (inject_Z (Z.of_nat (size ax) - 1) * scale ax <= 0)%Q).
  { assert (0 <= inject_Z (Z.of_nat (size ax) - 1) * - scale ax)%Q
      by (apply Qmult_le_0_compat; lra).
    lra. }
  assert (Hq : ((v - offset ax) / scale ax == (offset ax - v) / - scale ax)%Q).
  { field. lra. }
  split; intros Hv.
  - unfold low_value in Hv. rewrite Q.min_r in Hv by lra.
    assert (inject_Z (Z.of_nat (size ax) - 1)
            < (v - offset ax) / scale ax)%Q.
    { rewrite Hq. apply Qlt_shift_div_l; lra. }
    apply round_above in H; [|lia]. unfold index_at, clamp. lia.
  - unfold high_value in Hv. rewrite Q.max_l in Hv by lra.
    assert ((v - offset ax) / scale ax < 0)%Q.
    { rewrite Hq. apply Qlt_shift_div_r; lra. }
    apply round_neg in H. unfold index_at, clamp. lia.
Qed.

(** The zero-loss channel of the alignment tests. *)
Example test_axis_izlp : index_at test_axis 0 = 20%Z.
Proof. vm_compute. reflexivity. Qed.

End axis_facts.

Lemma index_at_clamps_witness :
  axes.index_at axes_spec.test_axis (-3) = 0%Z /\
  axes.index_at axes_spec.test_axis 50 = 99%Z.
Proof.
  split.
  - apply (index_at_clamps axes_spec.test_axis (-3));
      [reflexivity | vm_compute; lia | vm_compute; reflexivity].
  - apply (index_at_clamps axes_spec.test_axis 50);
      [reflexivity | vm_compute; lia | vm_compute; reflexivity].
Defined.

(** ** The model factory *)

Section factory_facts.
Import hspy hspy_spec.

Variable EELSSpectrum Spectrum : gmap string pyval -> result Signal.
Variable set_microscope_parameters :
  Signal -> pyval -> pyval -> pyval -> result Signal.
Variable EELSModel__init__ Model__init__ :
  Signal -> list pyval -> gmap string pyval -> result (list Component).
Variable components :
  gmap string (list pyval -> gmap string pyval -> result Component).

#[local] Set Warnings "-notation-for-abbreviation".
Notation new := (hspy.new EELSModel__init__ Model__init__).
Notation create_model := (hspy.create_model EELSModel__init__ Model__init__).
Notation build_component := (hspy.build_component components).
Notation append_components := (hspy.append_components components).
Notation build_spectrum :=
  (hspy.build_spectrum EELSSpectrum Spectrum set_microscope_parameters).
Notation build_model := (hspy.build_model EELSModel__init__ Model__init__).
Notation create_model_from_dict :=
  (hspy.create_model_from_dict EELSSpectrum Spectrum set_microscope_parameters
     EELSModel__init__ Model__init__ components).

Lemma new_Ok cls signal args kwargs m :
  new cls signal args kwargs = Ok m ->
  class_ m = cls /\ spectrum m = signal /\
  match cls with
  | EELSModel => EELSModel__init__ signal args kwargs
  | Model_ => Model__init__ signal args kwargs
  end = Ok (items m).
Proof.
  unfold hspy.new. intros H. apply bind_Ok in H as (comps & Hc & H).
  injection H as <-. auto.
Qed.

(** C1. For every signal passed to create_model, the model returned is
    an EELSModel exactly when the signal is an instance of EELSSpectrum,
    and a generic Model otherwise; the signal and the extra positional
    and keyword arguments reach the constructor of the chosen class
    unchanged: create_model returns exactly when that constructor,
    called on the very signal, args and kwargs, returns, the model then
    holds what the constructor built from them, and an exception of the
    constructor is the exception of create_model. *)
Theorem create_model_dispatch signal args kwargs :
  create_model signal args kwargs
  = match (if decide ("EELSSpectrum" ∈ mro signal)
           then EELSModel__init__ signal args kwargs
           else Model__init__ signal args kwargs) with
    | Ok comps =>
        Ok {| class_ := if decide ("EELSSpectrum" ∈ mro signal)
                        then EELSModel else Model_;
              spectrum := signal; items := comps |}
    | Raise e => Raise e
    end /\
  (forall m, create_model signal args kwargs = Ok m ->
     (class_ m = EELSModel <-> "EELSSpectrum" ∈ mro signal) /\
     (class_ m = Model_ <-> "EELSSpectrum" ∉ mro signal) /\
     spectrum m = signal /\
     (if decide ("EELSSpectrum" ∈ mro signal)
      then EELSModel__init__ signal args kwargs
      else Model__init__ signal args kwargs) = Ok (items m)) /\
  (forall e,
     (if decide ("EELSSpectrum" ∈ mro signal)
      then EELSModel__init__ signal args kwargs
      else Model__init__ signal args kwargs) = Raise e ->
     create_model signal args kwargs = Raise e).
Proof.
  unfold hspy.create_model, isinstance.
  destruct (decide ("EELSSpectrum" ∈ mro signal)) as [Hin | Hout].
  - rewrite bool_decide_true by assumption. split; [|split].
    + unfold hspy.new.
      now destruct (EELSModel__init__ signal args kwargs).
    + intros m Hm. apply new_Ok in Hm as (Hc & Hs & Hi).
      rewrite Hc. repeat split; auto; intros; try discriminate;
        contradiction.
    + intros e He. unfold hspy.new. now rewrite He.
  - rewrite bool_decide_false by assumption. split; [|split].
    + unfold hspy.new.
      now destruct (Model__init__ signal args kwargs).
    + intros m Hm. apply new_Ok in Hm as (Hc & Hs & Hi).
      rewrite Hc. repeat split; auto; intros; try discriminate;
        contradiction.
    + intros e He. unfold hspy.new. now rewrite He.
Qed.

(** *** Restoring the calibration *)

Lemma same_frame_refl a : same_frame a a.
Proof. repeat split. Qed.

Lemma same_frame_trans a b c :
  same_frame a b -> same_frame b c -> same_frame a c.
Proof. unfold same_frame. intuition congruence. Qed.

Lemma alter_same_frame (f : DataAxis -> DataAxis) (ref : nat)
    (store : list DataAxis) :
  (forall a, same_frame a (f a)) ->
  Forall2 same_frame store (alter f ref store).
Proof.
  intros Hf. revert ref.
  induction store as [|a store IH]; intros [|ref]; simpl; constructor;
    auto using same_frame_refl.
  - clear. induction store; constructor; auto using same_frame_refl.
  - apply IH.
Qed.

Lemma Forall2_same_frame_trans (l1 l2 l3 : list DataAxis) :
  Forall2 same_frame l1 l2 -> Forall2 same_frame l2 l3 ->
  Forall2 same_frame l1 l3.
Proof.
  intros H12. revert l3. induction H12; intros l3 H23; inversion H23; subst;
    constructor; eauto using same_frame_trans.
Qed.

Lemma Forall2_same_frame_refl (l : list DataAxis) : Forall2 same_frame l l.
Proof. induction l; constructor; auto using same_frame_refl. Qed.

Lemma alter_assign (s o u : pyval) (ref : nat) (store : list DataAxis) :
  alter (set_units u) ref (alter (set_offset o) ref (alter (set_scale s) ref store))
  = alter (assign s o u) ref store.
Proof.
  revert ref. induction store as [|a store IH]; intros [|ref];
    try reflexivity.
  change (a :: alter (set_units u) ref
                 (alter (set_offset o) ref (alter (set_scale s) ref store))
          = a :: alter (assign s o u) ref store).
  f_equal. apply IH.
Qed.

Lemma restore_loop_cons ref refs entry entries store store' :
  restore_loop (ref :: refs) (entry :: entries) store = Ok store' ->
  exists s o u,
    subscript entry "scale" = Ok s /\ subscript entry "offset" = Ok o /\
    subscript entry "units" = Ok u /\
    restore_loop refs entries (alter (assign s o u) ref store) = Ok store'.
Proof.
  cbn [restore_loop]. intros H.
  apply bind_Ok in H as (s & Hs & H).
  apply bind_Ok in H as (o & Ho & H).
  apply bind_Ok in H as (u & Hu & H).
  cbv beta zeta in H. rewrite alter_assign in H. eauto 10.
Qed.

Lemma restore_loop_frame refs : forall entries store store',
  restore_loop refs entries store = Ok store' ->
  Forall2 same_frame store store'.
Proof.
  induction refs as [|ref refs IH]; intros entries store store' H.
  - injection H as <-. apply Forall2_same_frame_refl.
  - destruct entries as [|entry entries].
    + injection H as <-. apply Forall2_same_frame_refl.
    + apply restore_loop_cons in H as (s & o & u & _ & _ & _ & H).
      eapply Forall2_same_frame_trans; [|eapply IH; eassumption].
      apply alter_same_frame. intros a. repeat split.
Qed.

(** An axis that no zipped reference points to keeps every field. *)
Lemma restore_loop_other refs : forall entries store store' r,
  restore_loop refs entries store = Ok store' ->
  (forall k, k < length entries -> refs !! k <> Some r) ->
  store' !! r = store !! r.
Proof.
  induction refs as [|ref refs IH]; intros entries store store' r H Hr.
  - now injection H as <-.
  - destruct entries as [|entry entries].
    + now injection H as <-.
    + apply restore_loop_cons in H as (s & o & u & _ & _ & _ & H).
      rewrite (IH _ _ _ r H).
      * apply list_lookup_alter_ne. intros ->.
        apply (Hr 0); [simpl; lia | reflexivity].
      * intros k Hk. apply (Hr (S k)). simpl. lia.
Qed.

(** The axis a zipped reference points to gets the entry's calibration
    (the references being distinct). *)
Lemma restore_loop_writes refs : forall entries store store' k r e a',
  restore_loop refs entries store = Ok store' ->
  NoDup refs ->
  refs !! k = Some r -> entries !! k = Some e -> store' !! r = Some a' ->
  calibrated_from e a'.
Proof.
  induction refs as [|ref refs IH];
    intros entries store store' k r e a' H Hnd Hk He Ha'; [discriminate|].
  destruct entries as [|entry entries]; [discriminate|].
  apply restore_loop_cons in H as (s & o & u & Hs & Ho & Hu & H).
  inversion Hnd as [|? ? Hnotin Hnd']; subst.
  destruct k as [|k]; simplify_eq/=.
  - rewrite (restore_loop_other _ _ _ _ r H) in Ha'.
    + rewrite list_lookup_alter_eq in Ha'.
      apply fmap_Some in Ha' as (a & _ & ->). repeat split; assumption.
    + intros j _ Hj. apply Hnotin. eapply list_elem_of_lookup_2. eassumption.
  - eapply IH; eassumption.
Qed.

Lemma getitem_inv {V} (d : gmap string V) k v :
  getitem d k = Ok v -> d !! k = Some v.
Proof. unfold getitem. destruct (d !! k); now intros [= ->]. Qed.

Lemma as_list_inv v l : as_list v = Ok l -> v = PList l.
Proof. destruct v; simpl; intros [= ->]; reflexivity. Qed.

Lemma restore_calibration_Ok spectrum model_dict spectrum' :
  restore_calibration spectrum model_dict = Ok spectrum' ->
  exists nav sig store,
    model_dict !! "navigation_axes" = Some (PList nav) /\
    model_dict !! "signal_axes" = Some (PList sig) /\
    restore_loop (navigation_axes (axes_manager spectrum)) nav
      (_axes (axes_manager spectrum)) = Ok store /\
    restore_loop (signal_axes (axes_manager spectrum)) sig store
    = Ok (_axes (axes_manager spectrum')) /\
    spectrum' = with_axes spectrum (_axes (axes_manager spectrum')).
Proof.
  unfold restore_calibration. intros H.
  apply bind_Ok in H as (nav0 & Hnav0 & H).
  apply bind_Ok in H as (nav & Hnav & H).
  apply bind_Ok in H as (store & Hstore & H).
  apply bind_Ok in H as (sig0 & Hsig0 & H).
  apply bind_Ok in H as (sig & Hsig & H).
  apply bind_Ok in H as (store' & Hstore' & H).
  injection H as <-.
  apply getitem_inv in Hnav0, Hsig0.
  apply as_list_inv in Hnav, Hsig. subst nav0 sig0.
  exists nav, sig, store. auto.
Qed.

(** C6. When create_model_from_dict restores the calibration, it
    overwrites, for each navigation axis and each signal axis, only the
    scale, offset and units, with the values of the corresponding
    dictionary entry; the size, name and index_in_array of every axis
    are left unchanged (and so is every axis without an entry). *)
Theorem restore_calibration_frame spectrum model_dict spectrum' :
  restore_calibration spectrum model_dict = Ok spectrum' ->
  let am := axes_manager spectrum in
  let am' := axes_manager spectrum' in
  Forall2 same_frame (_axes am) (_axes am') /\
  navigation_axes am' = navigation_axes am /\
  signal_axes am' = signal_axes am /\
  (forall r, r ∉ navigation_axes am -> r ∉ signal_axes am ->
     _axes am' !! r = _axes am !! r) /\
  (NoDup (navigation_axes am ++ signal_axes am) ->
   forall group refs entries k r e a',
     (group = "navigation_axes" /\ refs = navigation_axes am) \/
     (group = "signal_axes" /\ refs = signal_axes am) ->
     model_dict !! group = Some (PList entries) ->
     refs !! k = Some r -> entries !! k = Some e ->
     _axes am' !! r = Some a' ->
     calibrated_from e a').
Proof.
  intros H. cbv zeta.
  apply restore_calibration_Ok in H
    as (nav & sig & store & Hnav & Hsig & Hl1 & Hl2 & Hsp).
  assert (Hrefs : navigation_axes (axes_manager spectrum')
                  = navigation_axes (axes_manager spectrum) /\
                  signal_axes (axes_manager spectrum')
                  = signal_axes (axes_manager spectrum)).
  { rewrite Hsp. split; reflexivity. }
  destruct Hrefs as [Hrn Hrs].
  split; [|split; [exact Hrn | split; [exact Hrs | split]]].
  - eapply Forall2_same_frame_trans; eapply restore_loop_frame; eassumption.
  - intros r Hn Hs.
    rewrite (restore_loop_other _ _ _ _ r Hl2),
            (restore_loop_other _ _ _ _ r Hl1); [reflexivity | |].
    + intros k _ Hk. apply Hn. eapply list_elem_of_lookup_2. eassumption.
    + intros k _ Hk. apply Hs. eapply list_elem_of_lookup_2. eassumption.
  - intros Hnd group refs entries k r e a' Hgroup Hd Hk He Ha'.
    apply NoDup_app in Hnd as (Hndn & Hdisj & Hnds).
    destruct Hgroup as [[-> ->] | [-> ->]].
    + rewrite Hnav in Hd. injection Hd as <-.
      rewrite (restore_loop_other _ _ _ _ r Hl2) in Ha'.
      * eapply (restore_loop_writes _ _ _ _ k r e a' Hl1); eassumption.
      * intros j _ Hj. eapply Hdisj; eapply list_elem_of_lookup_2; eassumption.
    + rewrite Hsig in Hd. injection Hd as <-.
      eapply (restore_loop_writes _ _ _ _ k r e a' Hl2); eassumption.
Qed.

(** The loop reads three keys of every entry it reaches and nothing
    else can stop it. *)
Lemma restore_loop_is_Ok refs : forall entries store,
  Forall (fun e => exists s o u,
            subscript e "scale" = Ok s /\ subscript e "offset" = Ok o /\
            subscript e "units" = Ok u) entries ->
  is_Ok (restore_loop refs entries store).
Proof.
  induction refs as [|ref refs IH]; intros entries store Hall.
  - eexists; reflexivity.
  - destruct Hall as [|e entries (s & o & u & Hs & Ho & Hu) Hall].
    + eexists; reflexivity.
    + cbn [restore_loop]. rewrite Hs. cbn [mbind result_bind].
      rewrite Ho. cbn [mbind result_bind]. rewrite Hu.
      cbn [mbind result_bind]. apply IH. assumption.
Qed.

(** *** Appending the components *)

Lemma build_component_name e c :
  build_component e = Ok c -> subscript e "name" = Ok (name c).
Proof.
  unfold hspy.build_component. intros H.
  apply bind_Ok in H as (id & Hid & H).
  apply bind_Ok in H as (cls & Hcls & H).
  destruct (eq_str id "EELSCLEdge").
  - apply bind_Ok in H as (el & _ & H).
    apply bind_Ok in H as (pre & _ & H).
    apply bind_Ok in H as (ss & _ & H).
    apply bind_Ok in H as (arg & _ & H).
    apply bind_Ok in H as (gos & _ & H).
    apply bind_Ok in H as (c0 & _ & H).
    apply bind_Ok in H as (n & Hn & H).
    injection H as <-. exact Hn.
  - apply bind_Ok in H as (c0 & _ & H).
    apply bind_Ok in H as (n & Hn & H).
    injection H as <-. exact Hn.
Qed.

Lemma append_Ok model c model' :
  append model c = Ok model' ->
  items model' = (items model ++ [c])%list /\
  class_ model' = class_ model /\ spectrum model' = spectrum model.
Proof.
  unfold append. destruct (existsb _ _); [discriminate|].
  intros [= <-]. auto.
Qed.

Lemma append_components_Ok entries : forall model model',
  append_components model entries = Ok model' ->
  exists comps,
    items model' = (items model ++ comps)%list /\
    Forall2 (fun e c => build_component e = Ok c) entries comps /\
    class_ model' = class_ model /\ spectrum model' = spectrum model.
Proof.
  induction entries as [|e entries IH]; intros model model' H.
  - injection H as <-. exists []. rewrite app_nil_r. auto.
  - cbn [hspy.append_components] in H.
    apply bind_Ok in H as (c & Hc & H).
    apply bind_Ok in H as (model1 & Hm1 & H).
    apply append_Ok in Hm1 as (Hi1 & Hc1 & Hs1).
    apply IH in H as (comps & Hi & Hall & Hcl & Hsp).
    exists (c :: comps). rewrite Hi, Hi1, <- app_assoc.
    repeat split; [constructor; assumption | congruence | congruence].
Qed.

(** C5. create_model_from_dict appends exactly one component per entry
    of model_dict['components'], in the order of the entries, after the
    components the new model starts with; the name of each appended
    component is the 'name' of its entry. *)
Theorem create_model_from_dict_components model_dict model :
  create_model_from_dict model_dict = Ok model ->
  exists entries spectrum model0 comps,
    model_dict !! "components" = Some (PList entries) /\
    build_model spectrum model_dict = Ok model0 /\
    items model = (items model0 ++ comps)%list /\
    length comps = length entries /\
    Forall2 (fun e c => subscript e "name" = Ok (name c)) entries comps.
Proof.
  unfold hspy.create_model_from_dict. intros H.
  apply bind_Ok in H as (sp0 & _ & H).
  apply bind_Ok in H as (sp & _ & H).
  apply bind_Ok in H as (model0 & Hm0 & H).
  apply bind_Ok in H as (entries0 & He0 & H).
  apply bind_Ok in H as (entries & He & H).
  apply getitem_inv in He0. apply as_list_inv in He. subst entries0.
  apply append_components_Ok in H as (comps & Hi & Hall & _).
  exists entries, sp, model0, comps.
  repeat split; try assumption.
  - symmetry. eapply Forall2_length. eassumption.
  - eapply Forall2_impl; [eassumption|].
    intros e c. apply build_component_name.
Qed.

(** The loop goes through when every entry builds a component and no
    built component takes the name of an active one before it. *)
Lemma append_components_succeeds entries : forall model comps,
  Forall2 (fun e c => build_component e = Ok c) entries comps ->
  names_free (length (items model)) (items model ++ comps) ->
  exists model',
    append_components model entries = Ok model' /\
    items model' = (items model ++ comps)%list.
Proof.
  induction entries as [|e entries IH]; intros model comps Hall Hfree.
  - inversion Hall; subst. exists model. now rewrite app_nil_r.
  - inversion Hall as [|? c ? comps' Hc Hall']; subst.
    cbn [hspy.append_components]. rewrite Hc. cbn [mbind result_bind].
    assert (Happ : append model c
                   = Ok {| class_ := class_ model; spectrum := spectrum model;
                           items := items model ++ [c] |}).
    { unfold append.
      destruct (existsb _ (items model)) eqn:E; [|reflexivity].
      apply existsb_exists in E as (ci & Hin & Hcol).
      apply list_elem_of_In, list_elem_of_lookup in Hin as [i Hi].
      rewrite (Hfree i (length (items model)) ci c) in Hcol;
        [discriminate | | | |].
      - now apply lookup_app_l_Some.
      - rewrite lookup_app_r, Nat.sub_diag by lia. reflexivity.
      - eapply lookup_lt_Some. eassumption.
      - lia. }
    rewrite Happ. cbn [mbind result_bind].
    destruct (IH {| class_ := class_ model; spectrum := spectrum model;
                    items := items model ++ [c] |} comps' Hall')
      as (model' & Hm' & Hi').
    + cbn [items]. rewrite <- app_assoc. cbn [app].
      intros i j ci cj Hi Hj Hij Hn. apply (Hfree i j ci cj Hi Hj Hij).
      rewrite length_app in Hn. lia.
    + exists model'. split; [exact Hm'|].
      rewrite Hi'. cbn [items]. now rewrite <- app_assoc.
Qed.

End factory_facts.

(** An EELS signal with a low-loss spectrum and two keywords: the power
    law of the EELS constructor, holding the three of them; the same
    call on a plain spectrum is the TypeError of the generic
    constructor, which takes no keyword. *)
Lemma create_model_dispatch_witness :
  exists m,
    hspy.create_model hspy_spec.echo_EELSModel__init__
      hspy_spec.echo_Model__init__ hspy_spec.example_eels_signal
      [PStr "ll"] (<["auto_background" := PInt 1]> {["GOS" := PStr "hydrogenic"]})
    = Ok m /\
    hspy.class_ m = hspy.EELSModel /\
    hspy.items m
    = [{| hspy.name := PStr "PowerLaw"; hspy.active := true;
          hspy.state := <["args" := PList [PStr "ll"]]>
                        (<["auto_background" := PInt 1]>
                           {["GOS" := PStr "hydrogenic"]}) |}] /\
    hspy.create_model hspy_spec.echo_EELSModel__init__
      hspy_spec.echo_Model__init__ hspy_spec.example_plain_signal
      [PStr "ll"] (<["auto_background" := PInt 1]> {["GOS" := PStr "hydrogenic"]})
    = Raise TypeError.
Proof.
  destruct (create_model_dispatch hspy_spec.echo_EELSModel__init__
              hspy_spec.echo_Model__init__ hspy_spec.example_eels_signal
              [PStr "ll"]
              (<["auto_background" := PInt 1]> {["GOS" := PStr "hydrogenic"]}))
    as (_ & Hcls & _).
  destruct (create_model_dispatch hspy_spec.echo_EELSModel__init__
              hspy_spec.echo_Model__init__ hspy_spec.example_plain_signal
              [PStr "ll"]
              (<["auto_background" := PInt 1]> {["GOS" := PStr "hydrogenic"]}))
    as (_ & _ & Hraise).
  eexists. split; [vm_compute; reflexivity|].
  split; [|split].
  - refine (proj2 (proj1 (Hcls _ _)) _); [vm_compute; reflexivity|].
    vm_compute. constructor.
  - reflexivity.
  - apply Hraise. vm_compute. reflexivity.
Defined.

Lemma restore_calibration_frame_witness :
  Forall2 hspy_spec.same_frame
    (hspy._axes (hspy.axes_manager hspy_spec.example_eels_signal))
    (hspy._axes (hspy.axes_manager hspy_spec.example_restored)) /\
  forall a',
    hspy._axes (hspy.axes_manager hspy_spec.example_restored) !! 0 = Some a' ->
    hspy_spec.calibrated_from (hspy_spec.example_calibration 2 0 "nm") a'.
Proof.
  assert (H : hspy.restore_calibration hspy_spec.example_eels_signal
                hspy_spec.example_model_dict
              = Ok hspy_spec.example_restored) by (vm_compute; reflexivity).
  destruct (restore_calibration_frame _ _ _ H) as (Hf & _ & _ & _ & Hw).
  split; [exact Hf|].
  intros a' Ha'.
  assert (Hnd : NoDup ([0] ++ [1])).
  { apply NoDup_cons. split; [|apply NoDup_singleton].
    intros Hin. inversion Hin as [|? ? ? Hin']; inversion Hin'. }
  apply (Hw Hnd "navigation_axes" [0]
            [hspy_spec.example_calibration 2 0 "nm"] 0 0);
    first [exact Ha' | reflexivity | left; split; reflexivity
          | vm_compute; reflexivity].
Defined.

Lemma create_model_from_dict_components_witness :
  exists entries spectrum model0 comps,
    hspy_spec.example_model_dict !! "components" = Some (PList entries) /\
    hspy.build_model hspy_spec.example_EELSModel__init__
      hspy_spec.example_Model__init__ spectrum hspy_spec.example_model_dict
    = Ok model0 /\
    hspy.items hspy_spec.example_model = (hspy.items model0 ++ comps)%list /\
    length comps = length entries /\
    Forall2 (fun e c => subscript e "name" = Ok (hspy.name c)) entries comps.
Proof.
  apply (create_model_from_dict_components hspy_spec.example_EELSSpectrum
           hspy_spec.example_Spectrum
           hspy_spec.example_set_microscope_parameters
           hspy_spec.example_EELSModel__init__
           hspy_spec.example_Model__init__ hspy_spec.example_components
           hspy_spec.example_model_dict hspy_spec.example_model).
  vm_compute. reflexivity.
Defined.

(** The rebuilt model of the example: the power law that the EELS model
    starts with is popped, and the three entries follow in order. *)
Example example_model_names :
  map hspy.name (hspy.items hspy_spec.example_model)
  = [PStr "background"; PStr "C_K"; PStr "peak"].
Proof. vm_compute. reflexivity. Qed.

(** ** The multi-position fit *)

Section multifit_facts.
Import fit_controller fit_spec.

Variable signal : Type.
Variable optimizer : signal -> list Q -> result (list Q * bool).
Variable chi_squared : signal -> list Q -> Q.

#[local] Set Warnings "-notation-for-abbreviation".
Notation fit := (fit_controller.fit signal optimizer chi_squared).
Notation multifit := (fit_controller.multifit signal optimizer chi_squared).


(** A visit raises only what the Optimizer raised, and never for an
    invalid guess. *)
Lemma fit_Raise guess observed e :
  fit guess observed = Raise e ->
  optimizer observed guess = Raise e /\ e <> InvalidInitialGuess.
Proof.
  unfold fit_controller.fit.
  destruct (optimizer observed guess) as [[p [|]]|e']; try discriminate.
  destruct e'; try discriminate; intros [= <-]; split;
    first [reflexivity | discriminate].
Qed.

(** A visit returns unless the Optimizer raises something else than an
    invalid guess. *)
Lemma fit_is_Ok guess observed :
  (forall e, optimizer observed guess = Raise e -> e = InvalidInitialGuess) ->
  is_Ok (fit guess observed).
Proof.
  intros H. destruct (fit guess observed) as [r|e] eqn:E; [now exists r|].
  destruct (fit_Raise _ _ _ E) as [Hr Hne]. now apply H in Hr.
Qed.






End multifit_facts.

(** Three coordinates, the second degenerate: it is recorded as Failed,
    the two others converge, and the third is entered with the values
    the second retained. *)
Example multifit_scenario :
  exists recs,
    fit_controller.multifit Q fit_spec.example_optimizer
      fit_spec.example_chi_squared [1%Q] [3%Q; 0%Q; 5%Q] = Ok recs /\
    map fst recs
    = [fit_controller.Converged; fit_controller.Failed;
       fit_controller.Converged] /\
    map (fit_spec.entry_guess [1%Q] recs) [0; 1; 2]%nat
    = [[1%Q]; [3%Q]; [3%Q]].
Proof. eexists. vm_compute. repeat split. Qed.

(** An invalid guess fails every coordinate and still the run returns. *)
Example multifit_invalid_guess :
  exists recs,
    fit_controller.multifit Q fit_spec.example_optimizer
      fit_spec.example_chi_squared [] [3%Q; 0%Q; 5%Q] = Ok recs /\
    map fst recs
    = [fit_controller.Failed; fit_controller.Failed; fit_controller.Failed].
Proof. eexists. vm_compute. repeat split. Qed.

(** A violation of the parameter-vector contract is not a Failed outcome:
    it ends the run. *)
Example multifit_contract_violation :
  fit_controller.multifit Q fit_spec.strict_optimizer
    fit_spec.example_chi_squared [1%Q; 2%Q] [3%Q; 0%Q; 5%Q]
  = Raise (Other "DimensionMismatch").
Proof. reflexivity. Qed.



(** ** X-ray lines *)

Section line_facts.
Import eds_utils eds_spec.

Lemma str_find_absent (c : ascii) (s : string) :
  ~ In c (String.list_ascii_of_string s) -> str_find c s = (-1)%Z.
Proof.
  induction s as [|c' r IH]; intros Hn; [reflexivity|].
  cbn [str_find]. destruct (Ascii.eqb_spec c' c) as [->|Hne].
  - exfalso. apply Hn. now left.
  - rewrite IH; [reflexivity|]. intros Hin. apply Hn. now right.
Qed.

Lemma str_find_nonneg_or_absent (c : ascii) (s : string) :
  (str_find c s = -1 \/ 0 <= str_find c s)%Z.
Proof.
  induction s as [|c' r IH]; [now left|].
  cbn [str_find]. destruct (Ascii.eqb c' c); [right; lia|].
  destruct (Z.ltb_spec (str_find c r) 0); [now left | right; lia].
Qed.

Lemma str_find_first (c : ascii) (a b : string) :
  ~ In c (String.list_ascii_of_string a) ->
  str_find c (a ++ String c b) = Z.of_nat (String.length a).
Proof.
  induction a as [|c' r IH]; intros Hn.
  - change (str_find c (String c b) = 0%Z). cbn [str_find].
    now rewrite Ascii.eqb_refl.
  - change (str_find c (String c' (r ++ String c b))
            = Z.of_nat (S (String.length r))).
    cbn [str_find].
    destruct (Ascii.eqb_spec c' c) as [->|Hne].
    + exfalso. apply Hn. now left.
    + rewrite IH by (intros Hin; apply Hn; now right).
      destruct (Z.ltb_spec (Z.of_nat (String.length r)) 0); lia.
Qed.

Lemma str_take_app (a b : string) : str_take (String.length a) (a ++ b) = a.
Proof.
  induction a as [|c r IH]; [now destruct b|].
  change (String c (str_take (String.length r) (r ++ b)) = String c r).
  now rewrite IH.
Qed.

Lemma str_drop_app (a b : string) : str_drop (String.length a) (a ++ b) = b.
Proof. induction a as [|c r IH]; [reflexivity | exact IH]. Qed.

Lemma str_app_assoc (a b c : string) : (a ++ b) ++ c = a ++ (b ++ c).
Proof.
  induction a as [|x r IH]; [reflexivity|].
  change (String x ((r ++ b) ++ c) = String x (r ++ (b ++ c))).
  now rewrite IH.
Qed.

Lemma str_length_app (a b : string) :
  String.length (a ++ b) = String.length a + String.length b.
Proof.
  induction a as [|x r IH]; [reflexivity|].
  change (S (String.length (r ++ b)) = S (String.length r + String.length b)).
  now rewrite IH.
Qed.

(** X8. The line is split at its first underscore. *)
Theorem get_element_and_line_split (element line : string) :
  ~ In "_"%char (String.list_ascii_of_string element) ->
  _get_element_and_line (element ++ "_" ++ line) = (element, line).
Proof.
  intros Hn. unfold _get_element_and_line.
  change ("_" ++ line) with (String "_"%char line).
  rewrite (str_find_first "_"%char element line Hn).
  unfold str_slice_to, str_slice_from.
  destruct (Z.ltb_spec (Z.of_nat (String.length element)) 0); [lia|].
  destruct (Z.ltb_spec (Z.of_nat (String.length element) + 1) 0); [lia|].
  rewrite Nat2Z.id, str_take_app.
  replace (Z.to_nat (Z.of_nat (String.length element) + 1))
    with (String.length (element ++ "_"))
    by (rewrite str_length_app; cbn [String.length]; lia).
  change (String "_"%char line) with ("_" ++ line).
  rewrite <- str_app_assoc, str_drop_app. reflexivity.
Qed.

(** X9. Without an underscore nothing is split off: the "element" is the
    name less its last character and the "line" is the whole name. *)
Theorem get_element_and_line_no_underscore (Xray_line : string) :
  ~ In "_"%char (String.list_ascii_of_string Xray_line) ->
  _get_element_and_line Xray_line
  = (str_take (String.length Xray_line - 1) Xray_line, Xray_line).
Proof.
  intros Hn. unfold _get_element_and_line.
  rewrite (str_find_absent _ _ Hn).
  unfold str_slice_to, str_slice_from. cbn [Z.ltb Z.compare Z.add Z.opp Z.pos_sub].
  change (-1 <? 0)%Z with true. change (-1 + 1 <? 0)%Z with false.
  cbv iota. f_equal. f_equal. lia.
Qed.

Variable elements_db : gmap string (gmap string Q).
Variable Xray_energy : gmap string (gmap string Q).
Variable power : Q -> Q -> Q.
Variable sqrt : Q -> Q.

#[local] Set Warnings "-notation-for-abbreviation".
Notation line_energy := (eds_utils.line_energy elements_db Xray_energy).
Notation xray_range := (eds_utils.xray_range elements_db Xray_energy power).
Notation FWHM := (eds_utils.FWHM elements_db Xray_energy sqrt).

(** X10. Given a density, the table's density is not read.  The line
    energy is looked up before the division: an unknown line is the
    KeyError of the look-up whatever the density; with a known line the
    range is computed for every density that is not zero, and a density
    of zero is a division by zero. *)
Theorem xray_range_given_density (Xray_line : string) (beam_energy rho : Q) :
  (forall e,
     line_energy (_get_element_and_line Xray_line).1
       (_get_element_and_line Xray_line).2 = Raise e ->
     xray_range Xray_line beam_energy (Some rho) = Raise e) /\
  (forall E_line,
     line_energy (_get_element_and_line Xray_line).1
       (_get_element_and_line Xray_line).2 = Ok E_line ->
     ((rho == 0)%Q ->
      xray_range Xray_line beam_energy (Some rho) = Raise ZeroDivisionError) /\
     (~ (rho == 0)%Q ->
      is_Ok (xray_range Xray_line beam_energy (Some rho)))).
Proof.
  unfold eds_utils.xray_range.
  destruct (_get_element_and_line Xray_line) as [element line].
  cbn [fst snd mbind result_bind]. split.
  - intros e He. now rewrite He.
  - intros E_line HE. rewrite HE. cbn [mbind result_bind]. split.
    + intros H0. now rewrite (div_zero _ _ H0).
    + intros Hn. rewrite (div_Ok _ _ Hn). cbn [mbind result_bind].
      eexists; reflexivity.
Qed.

(** With the default density the range is the one for the density of
    the pure element. *)
Theorem xray_range_default (Xray_line : string) (beam_energy rho : Q) :
  element_property elements_db (_get_element_and_line Xray_line).1 "density"
  = Ok rho ->
  xray_range Xray_line beam_energy None
  = xray_range Xray_line beam_energy (Some rho).
Proof.
  intros H. unfold eds_utils.xray_range.
  destruct (_get_element_and_line Xray_line) as [element line].
  cbn [fst] in H. now rewrite H.
Qed.

(** X11. From the energy of the reference line upwards the width is
    defined: the argument of the square root is not negative there,
    whatever the reference width, so FWHM returns; an unknown reference
    line is the KeyError of its look-up. *)
Theorem FWHM_above_reference (FWHM_ref E : Q) (line_ref : string) :
  (forall e,
     line_energy (_get_element_and_line line_ref).1
       (_get_element_and_line line_ref).2 = Raise e ->
     FWHM FWHM_ref E line_ref = Raise e) /\
  (forall E_ref,
     line_energy (_get_element_and_line line_ref).1
       (_get_element_and_line line_ref).2 = Ok E_ref ->
     (E_ref <= E)%Q -> is_Ok (FWHM FWHM_ref E line_ref)).
Proof.
  unfold eds_utils.FWHM.
  destruct (_get_element_and_line line_ref) as [element line].
  cbn [fst snd]. split.
  - intros e He. now rewrite He.
  - intros E_ref HE Hle. rewrite HE. cbn [mbind result_bind].
    unfold math_sqrt.
    assert (Hpos : (0 <= 2.5 * (E - E_ref) * 1000 + FWHM_ref * FWHM_ref)%Q).
    { assert (0 <= FWHM_ref * FWHM_ref)%Q by nra. lra. }
    apply Qle_bool_iff in Hpos. rewrite Hpos. eexists; reflexivity.
Qed.

End line_facts.

(** ** Mixtures *)

Section mixture_facts.
Import eds_utils eds_spec.

Variable elements_db : gmap string (gmap string Q).

(** *** What goes wrong *)

Lemma tot_loop_short term els : forall cs pre tot,
  Forall (fun e => is_Some (mass elements_db e)) els ->
  (forall c a, is_Ok (term c a)) ->
  length cs < length els ->
  tot_loop elements_db term (length pre) els (pre ++ cs) tot = Raise IndexError.
Proof.
  induction els as [|e els IH]; intros cs pre tot Hm Ht Hlen;
    [simpl in Hlen; lia|].
  inversion Hm as [|? ? [a Ha] Hm']; subst.
  cbn [tot_loop]. unfold index.
  destruct cs as [|c cs].
  - rewrite app_nil_r, lookup_ge_None_2 by lia. reflexivity.
  - rewrite list_lookup_middle by reflexivity. cbn [mbind result_bind].
    rewrite (element_property_mass _ _ _ Ha). cbn [mbind result_bind].
    destruct (Ht c a) as [t ->]. cbn [mbind result_bind].
    replace (S (length pre)) with (length (pre ++ [c]))
      by (rewrite length_app; simpl; lia).
    rewrite (cons_middle c pre cs), app_assoc.
    apply IH; auto. simpl in Hlen. lia.
Qed.

(** X13. Fewer compositions than elements is an IndexError. *)
Theorem atomic_to_weight_short (elements : list string) (compositions : list Q) :
  Forall (fun e => is_Some (mass elements_db e)) elements ->
  length compositions < length elements ->
  atomic_to_weight elements_db elements compositions = Raise IndexError.
Proof.
  intros Hm Hlen. unfold atomic_to_weight.
  pose proof (tot_loop_short (fun c a => Ok (c * a)%Q) elements compositions
                [] 0%Q Hm) as H.
  cbn [app length] in H. rewrite H; [reflexivity | | assumption].
  intros c a. eexists; reflexivity.
Qed.

Lemma Qsum_zero (xs : list Q) :
  Forall (fun x => x == 0)%Q xs -> (Qsum xs == 0)%Q.
Proof.
  induction 1 as [|x xs Hx _ IH]; unfold Qsum; cbn [foldr]; [reflexivity|].
  fold (Qsum xs). rewrite Hx, IH. ring.
Qed.

(** X14. Compositions that are all zero have no proportions: the division by
    their total is a ZeroDivisionError. *)
Theorem atomic_to_weight_all_zero (elements : list string)
    (compositions : list Q) :
  elements <> [] ->
  length compositions = length elements ->
  Forall (fun e => is_Some (mass elements_db e)) elements ->
  Forall (fun c => c == 0)%Q compositions ->
  atomic_to_weight elements_db elements compositions = Raise ZeroDivisionError.
Proof.
  intros Hne Hlen Hm Hz.
  assert (Hmasses : exists masses,
             Forall2 (fun e a => mass elements_db e = Some a) elements masses).
  { clear -Hm. induction Hm as [|e els [a Ha] _ [masses IH]].
    - exists []. constructor.
    - exists (a :: masses). constructor; assumption. }
  destruct Hmasses as (masses & Hmass).
  assert (Hlm : length compositions = length masses).
  { rewrite Hlen. eapply Forall2_length. eassumption. }
  unfold atomic_to_weight.
  pose proof (tot_loop_Ok elements_db (fun c a => Ok (c * a)%Q) Qmult
                elements compositions masses [] 0%Q Hmass Hlen
                (mul_terms compositions masses Hlm)) as Htot.
  cbn [app length] in Htot. rewrite Htot. cbn [mbind result_bind].
  assert (Hzero : (fold_left Qplus (zip_with Qmult compositions masses) 0 == 0)%Q).
  { rewrite Qsum_fold_left, Qsum_zero; [ring|].
    clear -Hz. revert masses.
    induction Hz as [|c cs Hc _ IH]; intros [|a masses]; cbn [zip_with];
      constructor; auto. rewrite Hc. ring. }
  destruct elements as [|e els]; [congruence|].
  destruct compositions as [|c cs]; [discriminate|].
  inversion Hmass as [|? a ? masses' Ha Hmass']; subst.
  cbn [append_loop]. unfold index. cbn [lookup list_lookup].
  cbn [mbind result_bind].
  rewrite (element_property_mass _ _ _ Ha). cbn [mbind result_bind].
  rewrite (div_zero _ _ Hzero). reflexivity.
Qed.

End mixture_facts.

(** ** More on the netCDF reader *)

Section netcdf_more.
Import netcdf netcdf_spec netcdf_spec2.

Lemma mapM_getitem_all {V} (d : gmap string V) (keys : list string) :
  (forall k, k ∈ keys -> is_Some (d !! k)) ->
  exists l, mapM (getitem d) keys = Ok l /\
            Forall2 (fun k v => d !! k = Some v) keys l.
Proof.
  intros Hall.
  destruct (mapM_is_Ok (getitem d) keys) as [l Hl].
  - intros k Hk. destruct (Hall k Hk) as [v Hv]. exists v.
    now apply getitem_Some.
  - exists l. split; [exact Hl|].
    apply mapM_Ok in Hl. eapply Forall2_impl; [exact Hl|].
    intros k v. apply getitem_inv.
Qed.

(** X3. The per-key path: when the calibration has every key that a group
    requires, the field of each axis record is the file's value for the
    key of that axis. *)
Theorem calibration_per_key ncfile filename d cal axes g :
  nc_hyperspy_reader_0dot1 ncfile filename = Ok d ->
  calibration_of d = Some cal -> axes_of d = Some axes ->
  (forall key, key ∈ required_keys (is_image d) (length axes) g ->
     is_Some (cal !! key)) ->
  forall i key ax,
    required_keys (is_image d) (length axes) g !! i = Some key ->
    axes !! i = Some (PDict ax) ->
    ax !! group_field g = cal !! key.
Proof.
  intros H Hcal Haxes Hall i key ax Hkey Hi.
  apply reader_Ok in H
    as (dc & cal' & ty & sc & og & un & axes' & _ & _ & _ & Hsc & Hog & Hun
        & Hax & Haxes' & _ & Hcal' & Himg).
  rewrite Hcal in Hcal'. injection Hcal' as <-.
  rewrite Haxes in Haxes'. injection Haxes' as <-.
  apply mapM_Ok in Hax.
  assert (Hlen : length axes = length (shape (var_data dc))).
  { now rewrite <- (Forall2_length _ _ _ Hax), length_seq. }
  rewrite Himg, Hlen in Hall, Hkey.
  destruct (Forall2_lookup_r _ _ _ i _ Hax Hi) as (j & Hj & Hentry).
  apply lookup_seq in Hj as [-> Hlt]. cbn [Nat.add] in Hentry.
  apply axis_entry_Ok in Hentry
    as (ax' & n & [= <-] & _ & Hn & _ & _ & Hscale & Hoffset & Hunits).
  destruct (mapM_getitem_all cal _ Hall) as (l & Hl & Hvals).
  destruct (Forall2_lookup_l _ _ _ i key Hvals Hkey) as (v & Hv & Hcv).
  unfold lookup_keys in Hsc, Hog, Hun.
  destruct g; cbn [group_field].
  - rewrite Hl in Hsc. injection Hsc as <-. congruence.
  - rewrite Hl in Hog. injection Hog as <-. congruence.
  - rewrite Hl in Hun. injection Hun as <-. congruence.
Qed.

Lemma axis_entry_name data names scales origins units i v :
  axis_entry data names scales origins units i = Ok v ->
  exists n, names !! i = Some n /\ axis_name v = Some (PStr n).
Proof.
  unfold axis_entry, index. intros H.
  destruct (shape data !! i) as [n|]; [|discriminate].
  destruct (names !! i) as [nm|]; [|discriminate].
  destruct (scales !! i) as [sc|]; [|discriminate].
  destruct (origins !! i) as [og|]; [|discriminate].
  destruct (units !! i) as [un|]; [|discriminate].
  cbn [mbind result_bind] in H. injection H as <-.
  exists nm. split; [reflexivity|].
  unfold axis_name.
  rewrite lookup_insert_ne, lookup_insert_ne, lookup_insert_eq by discriminate.
  reflexivity.
Qed.

(** X4. The axes are named from the last one backwards: Energy, X, Y for a
    spectrum and X, Y, Z for an image, whatever the file says. *)
Theorem reader_axis_names ncfile filename d axes :
  nc_hyperspy_reader_0dot1 ncfile filename = Ok d ->
  axes_of d = Some axes ->
  Forall2 (fun v n => axis_name v = Some (PStr n)) axes
    (drop (3 - length axes)
       (if is_image d then ["Z"; "Y"; "X"] else ["Y"; "X"; "Energy"])).
Proof.
  intros H Haxes.
  apply reader_Ok in H
    as (dc & cal' & ty & sc & og & un & axes' & _ & _ & _ & _ & _ & _
        & Hax & Haxes' & _ & _ & Himg).
  rewrite Haxes in Haxes'. injection Haxes' as <-.
  apply mapM_Ok in Hax.
  pose proof (reader_dim_shape dc ty _ _ _ _ Hax) as Hd.
  assert (Hlen : length axes = length (shape (var_data dc))).
  { now rewrite <- (Forall2_length _ _ _ Hax), length_seq. }
  rewrite Himg, Hlen.
  set (names := if eq_str ty "Image" then _ else _) in *.
  assert (Hslice : slice_from (3 - Z.of_nat (length (shape (var_data dc)))) names
                   = drop (3 - length (shape (var_data dc))) names).
  { unfold slice_from.
    destruct (Z.ltb_spec (3 - Z.of_nat (length (shape (var_data dc)))) 0);
      [lia|]. f_equal. lia. }
  rewrite Hslice in Hax.
  assert (Hnl : length (drop (3 - length (shape (var_data dc))) names)
                = length (shape (var_data dc))).
  { rewrite length_drop.
    assert (length names = 3) by (unfold names; now destruct (eq_str ty "Image")).
    lia. }
  apply Forall2_same_length_lookup. split; [lia|].
  intros i v n Hv Hn.
  destruct (Forall2_lookup_r _ _ _ i _ Hax Hv) as (j & Hj & Hentry).
  apply lookup_seq in Hj as [-> Hlt]. cbn [Nat.add] in Hentry.
  apply axis_entry_name in Hentry as (n' & Hn' & Hname). congruence.
Qed.


Lemma read_attribs_other unwrap items dc : forall acc cal key,
  read_attribs unwrap items dc acc = Ok cal ->
  key ∉ map fst items -> cal !! key = acc !! key.
Proof.
  induction items as [|attrib rest IH]; intros acc cal key H Hn.
  - now injection H as <-.
  - cbn [read_attribs] in H.
    assert (Hne : attrib.1 <> key).
    { intros <-. apply Hn. cbn [map]. left. }
    assert (Hn' : key ∉ map fst rest).
    { intros Hin. apply Hn. cbn [map]. now right. }
    destruct (var_attrs dc !! attrib.2) as [value|].
    + apply bind_Ok in H as (v & _ & H).
      rewrite (IH _ _ key H Hn'). now apply lookup_insert_ne.
    + exact (IH _ _ key H Hn').
Qed.

Lemma read_attribs_key unwrap items dc : forall acc cal key attr,
  read_attribs unwrap items dc acc = Ok cal ->
  NoDup (map fst items) -> (key, attr) ∈ items ->
  match var_attrs dc !! attr with
  | Some value => exists v, cal !! key = Some v /\ stored unwrap value v
  | None => cal !! key = acc !! key
  end.
Proof.
  induction items as [|attrib rest IH]; intros acc cal key attr H Hnd Hin.
  - inversion Hin.
  - cbn [map] in Hnd. apply NoDup_cons in Hnd as [Hfresh Hnd].
    apply elem_of_cons in Hin as [Heq | Hin].
    + subst attrib. cbn [read_attribs fst snd] in H, Hfresh.
      destruct (var_attrs dc !! attr) as [value|] eqn:E.
      * apply bind_Ok in H as (v & Hv & H).
        exists v. split.
        -- rewrite (read_attribs_other _ _ _ _ _ key H Hfresh).
           apply lookup_insert_eq.
        -- unfold stored. destruct value; try (now injection Hv as <-).
           destruct unwrap; [exact Hv | now injection Hv as <-].
      * exact (read_attribs_other _ _ _ _ _ key H Hfresh).
    + cbn [read_attribs] in H.
      assert (Hne : attrib.1 <> key).
      { intros <-. apply Hfresh.
        apply (list_elem_of_fmap_2 fst) in Hin. exact Hin. }
      destruct (var_attrs dc !! attrib.2) as [value'|].
      * apply bind_Ok in H as (v' & _ & H).
        specialize (IH _ _ key attr H Hnd Hin).
        destruct (var_attrs dc !! attr); [exact IH|].
        rewrite IH. now apply lookup_insert_ne.
      * exact (IH _ _ key attr H Hnd Hin).
Qed.

Lemma attrib2netcdf_NoDup : NoDup (map fst attrib2netcdf).
Proof. apply NoDup_ListNoDup. vm_compute. repeat constructor;
  cbn; intuition discriminate. Qed.

(** X6. The calibration dictionary has a key of the table exactly when the
    variable has the attribute the table names for it; the value is the
    attribute's, or its first element when the attribute is an array.
    Nothing else is in the dictionary. *)
Theorem reader_calibration ncfile filename d cal dc :
  nc_hyperspy_reader_0dot1 ncfile filename = Ok d ->
  calibration_of d = Some cal ->
  variables ncfile !! "data_cube" = Some dc ->
  (forall key attr, (key, attr) ∈ attrib2netcdf ->
     match var_attrs dc !! attr with
     | Some value => exists v, cal !! key = Some v /\ stored true value v
     | None => cal !! key = None
     end) /\
  (forall key, key ∉ map fst attrib2netcdf -> cal !! key = None).
Proof.
  intros H Hcal Hdc.
  apply reader_Ok in H
    as (dc' & cal' & ty & sc & og & un & axes' & Hdc' & _ & Hread & _ & _ & _
        & _ & _ & _ & Hcal' & _).
  rewrite Hcal in Hcal'. injection Hcal' as <-.
  rewrite Hdc in Hdc'. injection Hdc' as <-.
  split.
  - intros key attr Hin.
    pose proof (read_attribs_key _ _ _ _ _ key attr Hread
                  attrib2netcdf_NoDup Hin) as Hk.
    destruct (var_attrs dc !! attr); [exact Hk|].
    rewrite Hk. apply lookup_empty.
  - intros key Hn.
    rewrite (read_attribs_other _ _ _ _ _ key Hread Hn). apply lookup_empty.
Qed.

(** X7. file_reader returns, a one-element tuple, only for a file whose
    format version is 'EELSLab 0.1'; a file with another version does
    not reach the "unsupported" branch and ends in an unbound variable. *)
Theorem file_reader_versions no_netcdf open_ warning_exit filename :
  (forall l,
     file_reader no_netcdf open_ warning_exit filename = Ok l ->
     no_netcdf = false /\
     exists ncfile v d,
       open_ filename = Ok ncfile /\
       ds_attrs ncfile !! "file_format_version" = Some v /\
       eq_str v "EELSLab 0.1" = true /\
       nc_hyperspy_reader_0dot1 ncfile filename = Ok d /\ l = [d]) /\
  (forall ncfile v,
     no_netcdf = false -> open_ filename = Ok ncfile ->
     ds_attrs ncfile !! "file_format_version" = Some v ->
     eq_str v "EELSLab 0.1" = false ->
     file_reader no_netcdf open_ warning_exit filename
     = Raise (UnboundLocalError "dictionary")).
Proof.
  unfold file_reader. split.
  - intros l H. destruct no_netcdf; [discriminate|]. split; [reflexivity|].
    apply bind_Ok in H as (ncfile & Hopen & H).
    apply bind_Ok in H as (dictionary & Hd & H).
    destruct dictionary as [d|]; [|discriminate]. injection H as <-.
    destruct (ds_attrs ncfile !! "file_format_version") as [v|] eqn:Ev.
    + destruct (eq_str v "EELSLab 0.1") eqn:E; [|discriminate].
      apply bind_Ok in Hd as (d' & Hd' & Hd). injection Hd as ->.
      exists ncfile, v, d. auto.
    + apply bind_Ok in Hd as (u & _ & Hd). discriminate.
  - intros ncfile v -> Hopen Hv Hne.
    rewrite Hopen. cbn [mbind result_bind]. rewrite Hv, Hne. reflexivity.
Qed.

End netcdf_more.

(** ** More on the model factory *)

Section factory_more.
Import hspy hspy_spec.

Variable EELSSpectrum Spectrum : gmap string pyval -> result Signal.
Variable set_microscope_parameters :
  Signal -> pyval -> pyval -> pyval -> result Signal.
Variable EELSModel__init__ Model__init__ :
  Signal -> list pyval -> gmap string pyval -> result (list Component).
Variable components :
  gmap string (list pyval -> gmap string pyval -> result Component).

#[local] Set Warnings "-notation-for-abbreviation".
Notation new := (hspy.new EELSModel__init__ Model__init__).
Notation build_model := (hspy.build_model EELSModel__init__ Model__init__).
Notation create_model_from_dict :=
  (hspy.create_model_from_dict EELSSpectrum Spectrum set_microscope_parameters
     EELSModel__init__ Model__init__ components).

(** X16. [zip] stops at the shorter sequence: the entries beyond the number
    of axes are never read, whatever they are. *)
Theorem restore_loop_surplus refs : forall entries store,
  restore_loop refs entries store
  = restore_loop refs (take (length refs) entries) store.
Proof.
  induction refs as [|ref refs IH]; intros entries store.
  - now destruct entries.
  - destruct entries as [|entry entries]; [reflexivity|].
    cbn [length take restore_loop].
    destruct (subscript entry "scale") as [s|]; [|reflexivity].
    cbn [mbind result_bind].
    destruct (subscript entry "offset") as [o|]; [|reflexivity].
    cbn [mbind result_bind].
    destruct (subscript entry "units") as [u|]; [|reflexivity].
    cbn [mbind result_bind]. apply IH.
Qed.

(** X17. The axes beyond the listed entries keep their calibration. *)
Theorem restore_loop_missing refs entries store store' k r :
  restore_loop refs entries store = Ok store' ->
  NoDup refs -> refs !! k = Some r -> length entries <= k ->
  store' !! r = store !! r.
Proof.
  intros H Hnd Hk Hlen. apply (restore_loop_other _ _ _ _ r H).
  intros j Hj Hj'.
  assert (j = k) by (eapply NoDup_lookup; eassumption). lia.
Qed.

(** X18. A reached entry without one of the three keys stops the loop with
    the KeyError of the first key it lacks. *)
Theorem restore_loop_KeyError ref refs (entry : gmap string pyval) entries
    store :
  let run := restore_loop (ref :: refs) (PDict entry :: entries) store in
  (entry !! "scale" = None -> run = Raise (KeyError "scale")) /\
  (is_Some (entry !! "scale") -> entry !! "offset" = None ->
   run = Raise (KeyError "offset")) /\
  (is_Some (entry !! "scale") -> is_Some (entry !! "offset") ->
   entry !! "units" = None -> run = Raise (KeyError "units")).
Proof.
  cbv zeta. cbn [restore_loop subscript as_dict mbind result_bind].
  split; [|split].
  - intros Hs. now rewrite (getitem_None _ _ Hs).
  - intros [s Hs] Ho. rewrite (getitem_Some _ _ _ Hs).
    cbn [mbind result_bind]. now rewrite (getitem_None _ _ Ho).
  - intros [s Hs] [o Ho] Hu. rewrite (getitem_Some _ _ _ Hs).
    cbn [mbind result_bind]. rewrite (getitem_Some _ _ _ Ho).
    cbn [mbind result_bind]. now rewrite (getitem_None _ _ Hu).
Qed.

Lemma pop_Ok model model' :
  pop model = Ok model' ->
  items model <> [] /\ items model' = removelast (items model) /\
  class_ model' = class_ model /\ spectrum model' = spectrum model.
Proof.
  unfold pop. destruct (items model) as [|c l] eqn:E; [discriminate|].
  intros [= <-]. repeat split. discriminate.
Qed.

(** X19. An EELS model is rebuilt without the last of the components that
    its constructor adds; when the constructor adds none, the pop is an
    IndexError. *)
Theorem build_model_pop spectrum model_dict comps :
  model_dict !! "model_type"
  = Some (PStr "<class 'hyperspy.models.eelsmodel.EELSModel'>") ->
  EELSModel__init__ spectrum [] ∅ = Ok comps ->
  build_model spectrum model_dict
  = match comps with
    | [] => Raise IndexError
    | _ => Ok {| class_ := EELSModel; spectrum := spectrum;
                 items := removelast comps |}
    end.
Proof.
  intros Hty Hinit. unfold hspy.build_model.
  rewrite (getitem_Some _ _ _ Hty). cbn [mbind result_bind].
  unfold eq_str. rewrite bool_decide_true by reflexivity.
  unfold hspy.new. rewrite Hinit. cbn [mbind result_bind].
  unfold pop. cbn [items class_ hspy.spectrum].
  destruct comps; reflexivity.
Qed.

(** X20. The class of the rebuilt model is read off the 'model_type' string:
    EELSModel for the one string of that class, Model for anything
    else; its spectrum is an EELSSpectrum only for the one
    'spectrum_type' string of that class. *)
Theorem create_model_from_dict_class model_dict model :
  create_model_from_dict model_dict = Ok model ->
  exists model_type spectrum_type,
    model_dict !! "model_type" = Some model_type /\
    model_dict !! "spectrum_type" = Some spectrum_type /\
    class_ model
    = (if eq_str model_type "<class 'hyperspy.models.eelsmodel.EELSModel'>"
       then EELSModel else Model_) /\
    (eq_str spectrum_type "<class 'hyperspy.signals.eels.EELSSpectrum'>" = false ->
     exists d s,
       model_dict !! "spectrum" = Some d /\
       Spectrum {[ "data" := d ]} = Ok s /\
       restore_calibration s model_dict = Ok (hspy.spectrum model)).
Proof.
  unfold hspy.create_model_from_dict. intros H.
  apply bind_Ok in H as (sp0 & Hsp0 & H).
  apply bind_Ok in H as (sp & Hsp & H).
  apply bind_Ok in H as (model0 & Hm0 & H).
  apply bind_Ok in H as (entries0 & He0 & H).
  apply bind_Ok in H as (entries & He & H).
  apply append_components_Ok in H as (comps & _ & _ & Hcls & Hspec).
  unfold hspy.build_model in Hm0.
  apply bind_Ok in Hm0 as (mt & Hmt & Hm0). apply getitem_inv in Hmt.
  unfold hspy.build_spectrum in Hsp0.
  apply bind_Ok in Hsp0 as (st & Hst & Hsp0). apply getitem_inv in Hst.
  exists mt, st. split; [exact Hmt|]. split; [exact Hst|].
  assert (Hm0' : class_ model0
                 = (if eq_str mt "<class 'hyperspy.models.eelsmodel.EELSModel'>"
                    then EELSModel else Model_) /\
                 hspy.spectrum model0 = sp).
  { destruct (eq_str mt _).
    - apply bind_Ok in Hm0 as (m1 & Hm1 & Hm0).
      apply (new_Ok EELSModel__init__ Model__init__) in Hm1 as (Hc1 & Hs1 & _).
      apply pop_Ok in Hm0 as (_ & _ & Hc & Hs). split; congruence.
    - apply (new_Ok EELSModel__init__ Model__init__) in Hm0 as (Hc & Hs & _).
      split; assumption. }
  destruct Hm0' as [Hc0 Hs0].
  split; [congruence|].
  intros Hne. rewrite Hne in Hsp0.
  apply bind_Ok in Hsp0 as (d & Hd & Hsp0). apply getitem_inv in Hd.
  exists d, sp0. split; [exact Hd|]. split; [exact Hsp0|]. congruence.
Qed.

End factory_more.

(** ** The properties at the examples *)

(** X2. A data cube of more than three dimensions is never read: the
    fourth axis has no name. *)
Lemma reader_rejects_more_than_3d ncfile filename dc :
  netcdf.variables ncfile !! "data_cube" = Some dc ->
  3 < length (shape (netcdf.var_data dc)) ->
  exists e, netcdf.nc_hyperspy_reader_0dot1 ncfile filename = Raise e.
Proof.
  intros Hdc Hdim.
  destruct (netcdf.nc_hyperspy_reader_0dot1 ncfile filename) as [d|e] eqn:Hd;
    [|now exists e].
  pose proof (reader_dim ncfile filename d dc Hd Hdc). lia.
Qed.

Lemma reader_rejects_more_than_3d_witness :
  exists e,
    netcdf.nc_hyperspy_reader_0dot1 extras_spec.example_4d_file "cube.nc"
    = Raise e.
Proof.
  apply (reader_rejects_more_than_3d extras_spec.example_4d_file "cube.nc"
           extras_spec.example_4d_cube).
  - vm_compute. reflexivity.
  - vm_compute. lia.
Defined.

Lemma example_file_readable : netcdf_spec.readable netcdf_spec.example_file.
Proof.
  eexists. split; [vm_compute; reflexivity|].
  split; [vm_compute; lia|]. split; [vm_compute; eexists; reflexivity|].
  intros k a Hk. exfalso.
  apply elem_of_map_to_list in Hk. vm_compute in Hk.
  repeat (apply elem_of_cons in Hk as [Hk | Hk]; [discriminate Hk|]).
  inversion Hk.
Qed.

Lemma reader_accepts_witness :
  is_Ok (netcdf.nc_hyperspy_reader_0dot1 netcdf_spec.example_file "/data/si.nc").
Proof.
  apply (reader_accepts netcdf_spec.example_file "/data/si.nc").
  exact example_file_readable.
Defined.

Lemma calibration_per_key_witness :
  exists ax,
    extras_spec.example_image_axes !! 2 = Some (PDict ax) /\
    ax !! "scale" = extras_spec.example_image_calibration !! "xscale" /\
    extras_spec.example_image_calibration !! "xscale" = Some (PFloat 0.5).
Proof.
  eexists. split; [vm_compute; reflexivity|].
  split; [|vm_compute; reflexivity].
  apply (calibration_per_key extras_spec.example_image_file "stack.nc"
           extras_spec.example_image_dictionary
           extras_spec.example_image_calibration
           extras_spec.example_image_axes netcdf_spec.Scales)
    with (i := 2).
  - vm_compute. reflexivity.
  - vm_compute. reflexivity.
  - vm_compute. reflexivity.
  - intros key Hkey. vm_compute in Hkey.
    repeat (apply elem_of_cons in Hkey as [-> | Hkey];
            [vm_compute; eexists; reflexivity|]).
    inversion Hkey.
  - vm_compute. reflexivity.
  - vm_compute. reflexivity.
Defined.

Lemma reader_axis_names_witness :
  Forall2 (fun v n => netcdf_spec2.axis_name v = Some (PStr n))
    extras_spec.example_image_axes ["Z"; "Y"; "X"].
Proof.
  apply (reader_axis_names extras_spec.example_image_file "stack.nc"
           extras_spec.example_image_dictionary extras_spec.example_image_axes).
  - vm_compute. reflexivity.
  - vm_compute. reflexivity.
Defined.


Lemma reader_calibration_witness :
  extras_spec.example_image_calibration !! "xscale" = Some (PFloat 0.5) /\
  extras_spec.example_image_calibration !! "xorigin" = None.
Proof.
  destruct (reader_calibration extras_spec.example_image_file "stack.nc"
              extras_spec.example_image_dictionary
              extras_spec.example_image_calibration
              extras_spec.example_image_cube)
    as [Hkeys _]; try (vm_compute; reflexivity).
  split.
  - assert (Hin : ("xscale", "x_scale") ∈ netcdf.attrib2netcdf)
      by (vm_compute; repeat first [left | right]).
    specialize (Hkeys _ _ Hin). vm_compute. reflexivity.
  - assert (Hin : ("xorigin", "x_origin") ∈ netcdf.attrib2netcdf)
      by (vm_compute; repeat first [left | right]).
    specialize (Hkeys _ _ Hin). exact Hkeys.
Defined.

Lemma file_reader_versions_witness :
  netcdf.file_reader false
    (fun _ => Ok extras_spec.example_other_version)
    netcdf_spec2.example_warning_exit "old.nc"
  = Raise (UnboundLocalError "dictionary").
Proof.
  destruct (file_reader_versions false
              (fun _ => Ok extras_spec.example_other_version)
              netcdf_spec2.example_warning_exit "old.nc") as [_ H].
  apply (H extras_spec.example_other_version (PStr "EELSLab 0.2"));
    reflexivity.
Defined.

Lemma get_element_and_line_split_witness :
  eds_utils._get_element_and_line "Al_Ka" = ("Al", "Ka").
Proof.
  apply (get_element_and_line_split "Al" "Ka").
  cbn. intros [H | [H | []]]; discriminate H.
Defined.

Lemma get_element_and_line_no_underscore_witness :
  eds_utils._get_element_and_line "AlKa" = ("AlK", "AlKa").
Proof.
  apply (get_element_and_line_no_underscore "AlKa").
  cbn. intros [H | [H | [H | [H | []]]]]; discriminate H.
Defined.

Lemma xray_range_given_density_witness :
  eds_utils.xray_range extras_spec.example_elements
    extras_spec.example_Xray_energy eds_spec.example_power "Al_Ka" 10
    (Some 0%Q) = Raise ZeroDivisionError /\
  is_Ok (eds_utils.xray_range extras_spec.example_elements
           extras_spec.example_Xray_energy eds_spec.example_power "Al_Ka" 10
           (Some 2.7%Q)) /\
  eds_utils.xray_range extras_spec.example_elements
    extras_spec.example_Xray_energy eds_spec.example_power "Al_Kb" 10
    (Some 0%Q) = Raise (KeyError "Kb").
Proof.
  split; [|split].
  - apply (proj2 (xray_range_given_density extras_spec.example_elements
                    extras_spec.example_Xray_energy eds_spec.example_power
                    "Al_Ka" 10 0) 1.4865%Q);
      vm_compute; reflexivity.
  - apply (proj2 (xray_range_given_density extras_spec.example_elements
                    extras_spec.example_Xray_energy eds_spec.example_power
                    "Al_Ka" 10 2.7) 1.4865%Q);
      [vm_compute; reflexivity | vm_compute; discriminate].
  - apply (proj1 (xray_range_given_density extras_spec.example_elements
                    extras_spec.example_Xray_energy eds_spec.example_power
                    "Al_Kb" 10 0)).
    vm_compute. reflexivity.
Defined.

Lemma FWHM_above_reference_witness :
  is_Ok (eds_utils.FWHM extras_spec.example_elements
           extras_spec.example_Xray_energy extras_spec.example_sqrt
           130 6.4 "Mn_Ka") /\
  eds_utils.FWHM extras_spec.example_elements extras_spec.example_Xray_energy
    extras_spec.example_sqrt 130 6.4 "Mn_Kb"
  = Raise (KeyError "Kb").
Proof.
  split.
  - apply (proj2 (FWHM_above_reference extras_spec.example_elements
                    extras_spec.example_Xray_energy extras_spec.example_sqrt
                    130 6.4 "Mn_Ka") 5.8987%Q);
      [vm_compute; reflexivity | vm_compute; discriminate].
  - apply (proj1 (FWHM_above_reference extras_spec.example_elements
                    extras_spec.example_Xray_energy extras_spec.example_sqrt
                    130 6.4 "Mn_Kb")).
    vm_compute. reflexivity.
Defined.

Lemma example_masses_known :
  Forall (fun e => is_Some (eds_spec.mass extras_spec.example_elements e))
    ["Al"; "Mn"].
Proof. repeat constructor; vm_compute; eexists; reflexivity. Qed.

Lemma atomic_to_weight_short_witness :
  eds_utils.atomic_to_weight extras_spec.example_elements ["Al"; "Mn"] [1%Q]
  = Raise IndexError.
Proof.
  apply (atomic_to_weight_short extras_spec.example_elements ["Al"; "Mn"] [1%Q]).
  - exact example_masses_known.
  - vm_compute. lia.
Defined.

Lemma atomic_to_weight_all_zero_witness :
  eds_utils.atomic_to_weight extras_spec.example_elements ["Al"; "Mn"]
    [0%Q; 0%Q] = Raise ZeroDivisionError.
Proof.
  apply (atomic_to_weight_all_zero extras_spec.example_elements ["Al"; "Mn"]
           [0%Q; 0%Q]).
  - discriminate.
  - reflexivity.
  - exact example_masses_known.
  - repeat constructor.
Defined.

Lemma restore_loop_missing_witness :
  exists store',
    hspy.restore_loop [0; 1] [hspy_spec.example_calibration 2 0 "nm"]
      hspy_spec.example_axes = Ok store' /\
    store' !! 1 = hspy_spec.example_axes !! 1.
Proof.
  eexists. split; [vm_compute; reflexivity|].
  apply (restore_loop_missing [0; 1] [hspy_spec.example_calibration 2 0 "nm"]
           hspy_spec.example_axes _ 1 1).
  - vm_compute. reflexivity.
  - apply NoDup_cons. split; [|apply NoDup_singleton].
    intros Hin. inversion Hin as [|? ? ? Hin']; inversion Hin'.
  - reflexivity.
  - vm_compute. lia.
Defined.

Lemma restore_loop_KeyError_witness :
  hspy.restore_loop [0] [PDict extras_spec.example_partial_entry]
    hspy_spec.example_axes = Raise (KeyError "offset").
Proof.
  destruct (restore_loop_KeyError 0 [] extras_spec.example_partial_entry []
              hspy_spec.example_axes) as (_ & H & _).
  apply H; vm_compute; [eexists|]; reflexivity.
Defined.

Lemma build_model_pop_witness :
  hspy.build_model hspy_spec.example_EELSModel__init__
    hspy_spec.example_Model__init__ hspy_spec.example_eels_signal
    hspy_spec.example_model_dict
  = Ok {| hspy.class_ := hspy.EELSModel;
          hspy.spectrum := hspy_spec.example_eels_signal;
          hspy.items := [] |}.
Proof.
  apply (build_model_pop hspy_spec.example_EELSModel__init__
           hspy_spec.example_Model__init__ hspy_spec.example_eels_signal
           hspy_spec.example_model_dict [hspy_spec.example_component "PowerLaw"]).
  - vm_compute. reflexivity.
  - reflexivity.
Defined.

Lemma create_model_from_dict_class_witness :
  hspy.class_ hspy_spec.example_model = hspy.EELSModel.
Proof.
  destruct (create_model_from_dict_class hspy_spec.example_EELSSpectrum
              hspy_spec.example_Spectrum
              hspy_spec.example_set_microscope_parameters
              hspy_spec.example_EELSModel__init__
              hspy_spec.example_Model__init__ hspy_spec.example_components
              hspy_spec.example_model_dict hspy_spec.example_model)
    as (mt & st & Hmt & _ & Hcls & _).
  - vm_compute. reflexivity.
  - rewrite Hcls. vm_compute in Hmt. injection Hmt as <-. reflexivity.
Defined.
